(** * cmsis_dsp_lib.c: real FFT, magnitude, window and FIR blocks

    A shallow embedding of [src/cmsis_dsp_lib.c].  The file wraps the ARM
    CMSIS-DSP kernels ([arm_math.h]) into "block" structures: the block is a
    C struct of scalars and borrowed pointers, and every operation copies or
    computes over caller-owned [float32_t] buffers.

    - C integers are [Z]; the ranges of [uint8_t], [uint16_t] and [uint32_t]
      arguments are the callers' (the types exclude anything else).
    - A pointer to [float32_t] is the index of a cell in one shared memory
      of [float32_t] cells, so that two pointers may alias; [p + n] is
      pointer arithmetic, and [0] is [NULL].
    - A struct lives outside that memory (no [float32_t] store reaches
      a field), and is passed and returned explicitly.
    - [float] and [double] arithmetic is an interface ([CArith]); the
      results hold for every implementation of it, IEEE 754 binary32 and
      exact arithmetic among them.
    - The kernels of CMSIS-DSP are not part of the repository: the FFT
      kernel is a parameter ([RealFFTKernel]), the element-wise ones and the
      FIR kernel are modelled cell by cell. *)

From Stdlib Require Import ZArith List Lia Bool.
From Stdlib Require Import Reals Lra.
From Stdlib Require Import SpecFloat.
Import ListNotations.
Open Scope Z_scope.

(** ** The arithmetic of C's [float] and [double] *)

Class CArith : Type := {
  float32_t : Type;
  float64_t : Type;
  (** conversions: [int] to [float], [int] to [double], the promotion of a
      [float] argument to [double], and the rounding of a [double] stored
      into a [float32_t] cell *)
  f32_of_int : Z -> float32_t;
  f64_of_int : Z -> float64_t;
  f64_of_f32 : float32_t -> float64_t;
  f32_of_f64 : float64_t -> float32_t;
  f32_add : float32_t -> float32_t -> float32_t;
  f32_mul : float32_t -> float32_t -> float32_t;
  f32_div : float32_t -> float32_t -> float32_t;
  f64_sub : float64_t -> float64_t -> float64_t;
  f64_mul : float64_t -> float64_t -> float64_t;
  (** [cos] of [math.h], on [double] *)
  libm_cos : float64_t -> float64_t;
  (** [arm_sqrt_f32] of [arm_math.h] *)
  arm_sqrt_f32 : float32_t -> float32_t;
  (** [M_PI] and the [double] literals [0.5], [0.54] and [0.46] *)
  M_PI : float64_t;
  lit_0_5 : float64_t;
  lit_0_54 : float64_t;
  lit_0_46 : float64_t
}.

Declare Scope cfloat_scope.
Delimit Scope cfloat_scope with cf.
Infix "+f" := f32_add (at level 50, left associativity) : cfloat_scope.
Infix "*f" := f32_mul (at level 40, left associativity) : cfloat_scope.
Infix "/f" := f32_div (at level 40, left associativity) : cfloat_scope.
Infix "-d" := f64_sub (at level 50, left associativity) : cfloat_scope.
Infix "*d" := f64_mul (at level 40, left associativity) : cfloat_scope.

(** ** Constants *)

(** [arm_status], as the head comment of the source lists it. *)
Definition ARM_MATH_SUCCESS : Z := 0.
Definition ARM_MATH_ARGUMENT_ERROR : Z := -1.
Definition ARM_MATH_LENGTH_ERROR : Z := -2.
Definition ARM_MATH_SIZE_MISMATCH : Z := -3.
Definition ARM_MATH_NANINF : Z := -4.
Definition ARM_MATH_SINGULAR : Z := -5.
Definition ARM_MATH_TEST_FAILURE : Z := -6.

(** The macros of [cmsis_dsp_lib.h], which is not under [src/]: the three
    window kinds and the two values of the kernel's direction flag. *)
Class Header : Type := {
  WINDOW_TYPE_RECTANGULAR : Z;
  WINDOW_TYPE_HANNING : Z;
  WINDOW_TYPE_HAMMING : Z;
  REAL_FFT_SELECT_VAL : Z;
  REAL_IFFT_SELECT_VAL : Z
}.

(** What a call hands back to its caller: nothing for a [void] function, a
    status code for one that returns [int8_t]. *)
Inductive c_return : Type :=
  | ret_void
  | ret_status (status : Z).

(** [(int8_t)] of a value. *)
Definition to_int8 (v : Z) : Z := (v + 128) mod 256 - 128.

Definition sizeof_float32_t : Z := 4.

(** ** Memory *)

Definition ptr : Type := Z.
Definition NULL : ptr := 0.

Section Memory.
Context {A : CArith}.

Definition mem : Type := ptr -> float32_t.

Definition store (m : mem) (p : ptr) (v : float32_t) : mem :=
  fun q => if q =? p then v else m q.

Fixpoint read_list (m : mem) (p : ptr) (n : nat) : list float32_t :=
  match n with
  | O => []
  | S k => m p :: read_list m (p + 1) k
  end.

Fixpoint write_list (m : mem) (p : ptr) (l : list float32_t) : mem :=
  match l with
  | [] => m
  | v :: r => write_list (store m p v) (p + 1) r
  end.

(** [memcpy(dst, src, nbytes)] between [float32_t] buffers: the source is
    read, then the destination written. *)
Definition memcpy (m : mem) (dst src : ptr) (nbytes : Z) : mem :=
  write_list m dst (read_list m src (Z.to_nat (nbytes / sizeof_float32_t))).

(** A counted loop [for (n = n0; n < n0 + count; n++)].  The source's
    counters are [uint16_t] and run below a [uint16_t] bound, so they never
    wrap. *)
Fixpoint for_loop (n : Z) (count : nat) (body : Z -> mem -> mem) (m : mem) : mem :=
  match count with
  | O => m
  | S c => for_loop (n + 1) c body (body n m)
  end.

(** The cells [p], ..., [p + n - 1]. *)
Definition in_region (p : ptr) (n : Z) (a : ptr) : Prop := p <= a < p + n.

(** Two buffers share no cell. *)
Definition disjoint (p : ptr) (n : Z) (q : ptr) (k : Z) : Prop :=
  forall a, in_region p n a -> in_region q k a -> False.

(** An element-wise kernel may run in place: no cell of the destination is
    written before a later cell of the source at the same address is read. *)
Definition writes_behind (pDst pSrc : ptr) (n : Z) : Prop :=
  forall i j, 0 <= i < j -> j < n -> pDst + i <> pSrc + j.

End Memory.

(** ** Window functions *)

(** [window_TypeDef] of [cmsis_dsp_lib.h], by the fields the source uses:
    [value], [length] and [type]. *)
Record window_TypeDef : Type := {
  w_value : ptr;
  w_length : Z;
  w_type : Z
}.

Section Window.
Context {A : CArith} {H : Header}.
Local Open Scope cfloat_scope.

(** [0.5*(1 - cos(2*(float32_t)(M_PI)*n/(user_w_struct->length)))]: the
    argument of [cos] is computed in [float], the rest in [double], and the
    assignment rounds to [float32_t]. *)
Definition window_phase (n len : Z) : float64_t :=
  f64_of_f32 (f32_of_int 2 *f f32_of_f64 M_PI *f f32_of_int n /f f32_of_int len).

Definition hanning_value (n len : Z) : float32_t :=
  f32_of_f64 (lit_0_5 *d (f64_of_int 1 -d libm_cos (window_phase n len))).

(** [0.54 - 0.46*cos(2*(float32_t)(M_PI)*n/(user_w_struct->length))] *)
Definition hamming_value (n len : Z) : float32_t :=
  f32_of_f64 (lit_0_54 -d lit_0_46 *d libm_cos (window_phase n len)).

Definition CMSIS_DSP_windowFunction_blockInit
    (user_w_struct : window_TypeDef) (set_valueBuf : ptr)
    (setWindowType : Z) (setLength : Z) (m : mem)
  : c_return * window_TypeDef * mem :=
  let w := {| w_value := set_valueBuf;
              w_length := w_length user_w_struct;
              w_type := w_type user_w_struct |} in
  let w := {| w_value := w_value w;
              w_length := setLength;
              w_type := w_type w |} in
  let w := {| w_value := w_value w;
              w_length := w_length w;
              w_type := setWindowType |} in
  let count := Z.to_nat (w_length w) in
  if w_type w =? WINDOW_TYPE_RECTANGULAR then
    (ret_void, w,
     for_loop 0 count (fun n m => store m (set_valueBuf + n) (f32_of_int 1)) m)
  else if w_type w =? WINDOW_TYPE_HANNING then
    (ret_void, w,
     for_loop 0 count
       (fun n m => store m (set_valueBuf + n) (hanning_value n (w_length w))) m)
  else if w_type w =? WINDOW_TYPE_HAMMING then
    (ret_void, w,
     for_loop 0 count
       (fun n m => store m (set_valueBuf + n) (hamming_value n (w_length w))) m)
  else
    (ret_void, w, m).

(** Modelled from the spec: [arm_mult_f32] is a kernel of CMSIS-DSP
    ([arm_math.h]), whose code is not under [src/].  It is the element-wise
    product, [pDst[i] = pSrcA[i] * pSrcB[i]] for [i] from [0] to
    [blockSize - 1], one cell read and written at a time (so that the output
    may be the input, in place). *)
Fixpoint arm_mult_f32 (m : mem) (pSrcA pSrcB pDst : ptr) (blkCnt : nat) : mem :=
  match blkCnt with
  | O => m
  | S c =>
      arm_mult_f32 (store m pDst (m pSrcA *f m pSrcB))
        (pSrcA + 1) (pSrcB + 1) (pDst + 1) c
  end.

Definition CMSIS_DSP_windowFunciton_apply
    (user_w_struct : window_TypeDef) (pInput pOutput : ptr) (m : mem) : c_return * mem :=
  (ret_void,
   arm_mult_f32 m pInput (w_value user_w_struct) pOutput
     (Z.to_nat (w_length user_w_struct))).

End Window.

(** ** Real FFT and magnitude *)

(** The FFT kernel of [arm_math.h] ([arm_rfft_fast_init_f32] and
    [arm_rfft_fast_f32]) is an external collaborator, taken as a parameter.
    [rfft_fast S flag x] is what one call of [arm_rfft_fast_f32] on the
    instance [S] computes from the [fftLenRFFT S] cells [x] of its input
    buffer: the cells it leaves in that buffer (the kernel works in place on
    its input) and the cells it writes to its output buffer. *)
Class RealFFTKernel {A : CArith} : Type := {
  arm_rfft_fast_instance_f32 : Type;
  fftLenRFFT : arm_rfft_fast_instance_f32 -> Z;
  arm_rfft_fast_init_f32 :
    arm_rfft_fast_instance_f32 -> Z -> Z * arm_rfft_fast_instance_f32;
  rfft_fast :
    arm_rfft_fast_instance_f32 -> Z -> list float32_t ->
    list float32_t * list float32_t;
  rfft_fast_length : forall S flag x,
    length (fst (rfft_fast S flag x)) = length x /\
    length (snd (rfft_fast S flag x)) = length x
}.

Section RealFFT.
Context {A : CArith} {H : Header} {K : RealFFTKernel}.
Local Open Scope cfloat_scope.

(** [rfft_f32_TypeDef] of [cmsis_dsp_lib.h], by the fields the source uses:
    [arm_struct], [length], [tmpBuffer_1] and [tmpBuffer_2]. *)
Record rfft_f32_TypeDef : Type := {
  rfft_arm_struct : arm_rfft_fast_instance_f32;
  rfft_length : Z;
  rfft_tmpBuffer_1 : ptr;
  rfft_tmpBuffer_2 : ptr
}.

(** [arm_rfft_fast_f32(S, p, pOut, ifftFlag)] on the shared memory. *)
Definition arm_rfft_fast_f32
    (S : arm_rfft_fast_instance_f32) (m : mem) (p pOut : ptr) (ifftFlag : Z) : mem :=
  let r := rfft_fast S ifftFlag (read_list m p (Z.to_nat (fftLenRFFT S))) in
  write_list (write_list m p (fst r)) pOut (snd r).

Definition CMSIS_DSP_real_FFT_f32_blockInit
    (user_RFFT_struct : rfft_f32_TypeDef) (set_tmp1 set_tmp2 : ptr) (setLength : Z)
  : c_return * rfft_f32_TypeDef :=
  let b := {| rfft_arm_struct := rfft_arm_struct user_RFFT_struct;
              rfft_length := setLength;
              rfft_tmpBuffer_1 := rfft_tmpBuffer_1 user_RFFT_struct;
              rfft_tmpBuffer_2 := rfft_tmpBuffer_2 user_RFFT_struct |} in
  let b := {| rfft_arm_struct := rfft_arm_struct b;
              rfft_length := rfft_length b;
              rfft_tmpBuffer_1 := set_tmp1;
              rfft_tmpBuffer_2 := rfft_tmpBuffer_2 b |} in
  let b := {| rfft_arm_struct := rfft_arm_struct b;
              rfft_length := rfft_length b;
              rfft_tmpBuffer_1 := rfft_tmpBuffer_1 b;
              rfft_tmpBuffer_2 := set_tmp2 |} in
  let r := arm_rfft_fast_init_f32 (rfft_arm_struct b) setLength in
  (ret_status (to_int8 (fst r)),
   {| rfft_arm_struct := snd r;
      rfft_length := rfft_length b;
      rfft_tmpBuffer_1 := rfft_tmpBuffer_1 b;
      rfft_tmpBuffer_2 := rfft_tmpBuffer_2 b |}).

Definition CMSIS_DSP_real_FFT_f32_apply
    (user_RFFT_struct : rfft_f32_TypeDef) (rDataIn fftOut : ptr) (m : mem)
  : c_return * mem :=
  let m := memcpy m (rfft_tmpBuffer_1 user_RFFT_struct) rDataIn
             (sizeof_float32_t * rfft_length user_RFFT_struct) in
  (ret_void,
   arm_rfft_fast_f32 (rfft_arm_struct user_RFFT_struct) m
     (rfft_tmpBuffer_1 user_RFFT_struct) fftOut REAL_FFT_SELECT_VAL).

Definition CMSIS_DSP_real_IFFT_f32_apply
    (user_RFFT_struct : rfft_f32_TypeDef) (fftIn ifftOut : ptr) (m : mem)
  : c_return * mem :=
  let m := memcpy m (rfft_tmpBuffer_1 user_RFFT_struct) fftIn
             (sizeof_float32_t * rfft_length user_RFFT_struct) in
  (ret_void,
   arm_rfft_fast_f32 (rfft_arm_struct user_RFFT_struct) m
     (rfft_tmpBuffer_1 user_RFFT_struct) ifftOut REAL_IFFT_SELECT_VAL).

(** Modelled from the spec: [arm_cmplx_mag_f32] and
    [arm_cmplx_mag_squared_f32] are kernels of CMSIS-DSP ([arm_math.h]), whose
    code is not under [src/].  Both walk the interleaved pairs of the source,
    one bin read and one cell written at a time:
    [real = pSrc[2n]; imag = pSrc[2n+1]; pDst[n] = g(real, imag)], for [n]
    from [0] to [numSamples - 1]. *)
Fixpoint cmplx_loop (g : float32_t -> float32_t -> float32_t)
    (m : mem) (pSrc pDst : ptr) (blkCnt : nat) : mem :=
  match blkCnt with
  | O => m
  | S c =>
      let real := m pSrc in
      let imag := m (pSrc + 1) in
      cmplx_loop g (store m pDst (g real imag)) (pSrc + 2) (pDst + 1) c
  end.

(** [real*real + imag*imag] *)
Definition cmplx_norm2 (real imag : float32_t) : float32_t :=
  real *f real +f imag *f imag.

(** [arm_cmplx_mag_f32(pSrc, pDst, numSamples)]:
    [pDst[n] = sqrt(pSrc[2n]^2 + pSrc[2n+1]^2)]. *)
Definition arm_cmplx_mag_f32 (m : mem) (pSrc pDst : ptr) (numSamples : Z) : mem :=
  cmplx_loop (fun real imag => arm_sqrt_f32 (cmplx_norm2 real imag))
    m pSrc pDst (Z.to_nat numSamples).

(** [arm_cmplx_mag_squared_f32(pSrc, pDst, numSamples)]:
    [pDst[n] = pSrc[2n]^2 + pSrc[2n+1]^2]. *)
Definition arm_cmplx_mag_squared_f32 (m : mem) (pSrc pDst : ptr) (numSamples : Z) : mem :=
  cmplx_loop cmplx_norm2 m pSrc pDst (Z.to_nat numSamples).

Definition CMSIS_DSP_magnitude_FFT_f32_apply
    (user_RFFT_struct : rfft_f32_TypeDef) (rDataIn magFFTOut : ptr) (m : mem)
  : c_return * mem :=
  let m := memcpy m (rfft_tmpBuffer_1 user_RFFT_struct) rDataIn
             (sizeof_float32_t * rfft_length user_RFFT_struct) in
  let m := arm_rfft_fast_f32 (rfft_arm_struct user_RFFT_struct) m
             (rfft_tmpBuffer_1 user_RFFT_struct)
             (rfft_tmpBuffer_2 user_RFFT_struct) REAL_FFT_SELECT_VAL in
  (ret_void,
   arm_cmplx_mag_f32 m (rfft_tmpBuffer_2 user_RFFT_struct) magFFTOut
     (rfft_length user_RFFT_struct / 2)).

Definition CMSIS_DSP_magnitudeSquare_FFT_f32_apply
    (user_RFFT_struct : rfft_f32_TypeDef) (rDataIn magSqFFTOut : ptr) (m : mem)
  : c_return * mem :=
  let m := memcpy m (rfft_tmpBuffer_1 user_RFFT_struct) rDataIn
             (sizeof_float32_t * rfft_length user_RFFT_struct) in
  let m := arm_rfft_fast_f32 (rfft_arm_struct user_RFFT_struct) m
             (rfft_tmpBuffer_1 user_RFFT_struct)
             (rfft_tmpBuffer_2 user_RFFT_struct) REAL_FFT_SELECT_VAL in
  (ret_void,
   arm_cmplx_mag_squared_f32 m (rfft_tmpBuffer_2 user_RFFT_struct) magSqFFTOut
     (rfft_length user_RFFT_struct / 2)).

(** The packed spectrum the kernel computes from the [length] samples at
    [rDataIn]. *)
Definition spectrum_of
    (user_RFFT_struct : rfft_f32_TypeDef) (rDataIn : ptr) (m : mem) : list float32_t :=
  snd (rfft_fast (rfft_arm_struct user_RFFT_struct) REAL_FFT_SELECT_VAL
         (read_list m rDataIn (Z.to_nat (rfft_length user_RFFT_struct)))).

(** The bins of a packed spectrum [X]: [real[k]] and [imag[k]]. *)
Definition bin_real (X : list float32_t) (k : Z) : float32_t :=
  nth (Z.to_nat (2 * k)) X (f32_of_int 0).
Definition bin_imag (X : list float32_t) (k : Z) : float32_t :=
  nth (Z.to_nat (2 * k + 1)) X (f32_of_int 0).

(** The block is configured for [length] samples: the kernel instance was
    initialised for the length the block records. *)
Definition rfft_configured (b : rfft_f32_TypeDef) : Prop :=
  fftLenRFFT (rfft_arm_struct b) = rfft_length b /\ 0 <= rfft_length b.

(** What the callers of the magnitude operations owe: the input does not
    overlap the first scratch buffer ([memcpy]), the two scratch buffers do
    not overlap (the kernel's input and output), and the output does not
    overlap the second scratch buffer, which is read while it is written. *)
Definition magnitude_buffers_ok (b : rfft_f32_TypeDef) (rDataIn out : ptr) : Prop :=
  let N := rfft_length b in
  disjoint rDataIn N (rfft_tmpBuffer_1 b) N /\
  disjoint (rfft_tmpBuffer_1 b) N (rfft_tmpBuffer_2 b) N /\
  disjoint out (N / 2) (rfft_tmpBuffer_2 b) N.

(** What the callers of the two transforms owe: neither the input nor the
    output overlaps the first scratch buffer. *)
Definition transform_buffers_ok (b : rfft_f32_TypeDef) (pIn pOut : ptr) : Prop :=
  let N := rfft_length b in
  disjoint pIn N (rfft_tmpBuffer_1 b) N /\
  disjoint pOut N (rfft_tmpBuffer_1 b) N.

End RealFFT.

(** ** FIR filter *)

(** [arm_fir_instance_f32] of [arm_math.h]. *)
Record arm_fir_instance_f32 : Type := {
  arm_fir_numTaps : Z;
  arm_fir_pState : ptr;
  arm_fir_pCoeffs : ptr
}.

(** [fir_f32_TypeDef] of [cmsis_dsp_lib.h], by the fields the source uses:
    [arm_struct], [numTap], [blockSize], [pCoeff], [pState] and
    [tmpBuffer]. *)
Record fir_f32_TypeDef : Type := {
  fir_arm_struct : arm_fir_instance_f32;
  fir_numTap : Z;
  fir_blockSize : Z;
  fir_pCoeff : ptr;
  fir_pState : ptr;
  fir_tmpBuffer : ptr
}.

Section FIR.
Context {A : CArith}.
Local Open Scope cfloat_scope.

(** Modelled from the spec: [arm_fir_init_f32] is a kernel of CMSIS-DSP
    ([arm_math.h]), whose code is not under [src/].  It binds the tap count
    and the two buffers in the instance and zero-fills the state buffer, of
    length tapCount + blockSize - 1; it returns nothing.  (With both sizes zero that
    length is below zero: no cell is written here, and nothing is proved of
    that case.) *)
Definition arm_fir_init_f32
    (S : arm_fir_instance_f32) (numTaps : Z) (pCoeffs pState : ptr)
    (blockSize : Z) (m : mem) : arm_fir_instance_f32 * mem :=
  ({| arm_fir_numTaps := numTaps; arm_fir_pState := pState; arm_fir_pCoeffs := pCoeffs |},
   write_list m pState
     (repeat (f32_of_int 0) (Z.to_nat (numTaps + blockSize - 1)))).

Definition CMSIS_DSP_FIR_f32_blockInit
    (user_FIR_struct : fir_f32_TypeDef) (set_pCoeff set_pState set_tmp : ptr)
    (setNumTap : Z) (setBlockSize : Z) (m : mem)
  : c_return * fir_f32_TypeDef * mem :=
  let b := {| fir_arm_struct := fir_arm_struct user_FIR_struct;
              fir_numTap := setNumTap;
              fir_blockSize := setBlockSize;
              fir_pCoeff := set_pCoeff;
              fir_pState := set_pState;
              fir_tmpBuffer := set_tmp |} in
  let r := arm_fir_init_f32 (fir_arm_struct b) setNumTap set_pCoeff set_pState
             setBlockSize m in
  (ret_void,
   {| fir_arm_struct := fst r;
      fir_numTap := fir_numTap b;
      fir_blockSize := fir_blockSize b;
      fir_pCoeff := fir_pCoeff b;
      fir_pState := fir_pState b;
      fir_tmpBuffer := fir_tmpBuffer b |},
   snd r).

(** Modelled from the spec: [arm_fir_f32] is a kernel of CMSIS-DSP
    ([arm_math.h]), whose code is not under [src/].  Per output sample it
    appends one input sample to the state buffer, takes the forward dot
    product of [numTaps] state cells with the (time-reversed) coefficients,
    and writes the sum to the output; at the end the last [numTaps - 1]
    samples move to the start of the state buffer, for the next call.  The
    source's block comment says the same: y[n] = b[0] * x[n] + ... +
    b[numTaps-1] * x[n-numTaps+1], coefficients stored time-reversed, a state
    of numTaps + blockSize - 1 samples. *)
Fixpoint fir_mac (m : mem) (px pb : ptr) (i : nat) (acc : float32_t) : float32_t :=
  match i with
  | O => acc
  | S i' => fir_mac m (px + 1) (pb + 1) i' (acc +f m px *f m pb)
  end.

Fixpoint fir_block (m : mem) (pState pCoeffs : ptr) (numTaps : Z)
    (pStateCurnt pSrc pDst : ptr) (blkCnt : nat) : mem :=
  match blkCnt with
  | O => m
  | S c =>
      let m1 := store m pStateCurnt (m pSrc) in
      let acc := fir_mac m1 pState pCoeffs (Z.to_nat numTaps) (f32_of_int 0) in
      fir_block (store m1 pDst acc) (pState + 1) pCoeffs numTaps
        (pStateCurnt + 1) (pSrc + 1) (pDst + 1) c
  end.

Fixpoint fir_shift (m : mem) (pStateCurnt pState : ptr) (tapCnt : nat) : mem :=
  match tapCnt with
  | O => m
  | S t => fir_shift (store m pStateCurnt (m pState)) (pStateCurnt + 1) (pState + 1) t
  end.

Definition arm_fir_f32
    (S : arm_fir_instance_f32) (m : mem) (pSrc pDst : ptr) (blockSize : Z) : mem :=
  let numTaps := arm_fir_numTaps S in
  let m := fir_block m (arm_fir_pState S) (arm_fir_pCoeffs S) numTaps
             (arm_fir_pState S + (numTaps - 1)) pSrc pDst (Z.to_nat blockSize) in
  fir_shift m (arm_fir_pState S) (arm_fir_pState S + blockSize) (Z.to_nat (numTaps - 1)).

Definition CMSIS_DSP_FIR_f32_apply
    (user_FIR_struct : fir_f32_TypeDef) (pInput pOutput : ptr) (m : mem)
  : c_return * mem :=
  let m := memcpy m (fir_tmpBuffer user_FIR_struct) pInput
             (sizeof_float32_t * fir_blockSize user_FIR_struct) in
  (ret_void,
   arm_fir_f32 (fir_arm_struct user_FIR_struct) m
     (fir_tmpBuffer user_FIR_struct) pOutput (fir_blockSize user_FIR_struct)).

End FIR.

(** ** Reference instances

    The interfaces above are instantiated to run the blocks on concrete
    inputs: exact arithmetic over the real numbers, IEEE 754 arithmetic
    (binary32 for [float], binary64 for [double]), the usual values of the
    header's macros, and a naive O(N^2) real DFT in the place of the FFT
    kernel. *)

Definition exact_arith : CArith := {|
  float32_t := R;
  float64_t := R;
  f32_of_int := IZR;
  f64_of_int := IZR;
  f64_of_f32 := fun x => x;
  f32_of_f64 := fun x => x;
  f32_add := Rplus;
  f32_mul := Rmult;
  f32_div := Rdiv;
  f64_sub := Rminus;
  f64_mul := Rmult;
  libm_cos := cos;
  arm_sqrt_f32 := sqrt;
  M_PI := PI;
  lit_0_5 := (5 / 10)%R;
  lit_0_54 := (54 / 100)%R;
  lit_0_46 := (46 / 100)%R
|}.

(** IEEE 754 arithmetic, round to nearest even.  [cos] is not an operation of
    the standard ([math.h] promises no rounding for it): it stays a
    parameter. *)
Section IEEE.
Variable cos64 : spec_float -> spec_float.

(** The value of [x] rounded into the format of [prec] bits. *)
Definition ieee_round (prec emax : Z) (x : spec_float) : spec_float :=
  match x with
  | S754_finite s m e =>
      binary_normalize prec emax (if s then Zneg m else Zpos m) e s
  | _ => x
  end.

Definition ieee_arith : CArith := {|
  float32_t := spec_float;
  float64_t := spec_float;
  f32_of_int := fun z => binary_normalize 24 128 z 0 false;
  f64_of_int := fun z => binary_normalize 53 1024 z 0 false;
  f64_of_f32 := ieee_round 53 1024;
  f32_of_f64 := ieee_round 24 128;
  f32_add := SFadd 24 128;
  f32_mul := SFmul 24 128;
  f32_div := SFdiv 24 128;
  f64_sub := SFsub 53 1024;
  f64_mul := SFmul 53 1024;
  libm_cos := cos64;
  (** [sqrtf] of a value that is [>= 0], and [0] of any other *)
  arm_sqrt_f32 := fun x =>
    if SFleb (S754_zero false) x then SFsqrt 24 128 x else S754_zero false;
  (** 3.14159265358979323846 *)
  M_PI := S754_finite false 7074237752028440 (-51);
  lit_0_5 := binary_normalize 53 1024 1 (-1) false;
  lit_0_54 :=
    SFdiv 53 1024 (binary_normalize 53 1024 54 0 false)
      (binary_normalize 53 1024 100 0 false);
  lit_0_46 :=
    SFdiv 53 1024 (binary_normalize 53 1024 46 0 false)
      (binary_normalize 53 1024 100 0 false)
|}.

(** A memory of binary32 cells that holds two coefficients at [100], three
    input samples at [400] and the bin (1, 1) at [600]. *)
Definition m_binary32 : @mem ieee_arith :=
  @write_list ieee_arith
    (@write_list ieee_arith
       (@write_list ieee_arith (fun _ => S754_zero false)
          100 (map (@f32_of_int ieee_arith) [2; 3]))
       400 (map (@f32_of_int ieee_arith) [1; 4; 6]))
    600 (map (@f32_of_int ieee_arith) [1; 1]).

End IEEE.

Definition std_header : Header := {|
  WINDOW_TYPE_RECTANGULAR := 0;
  WINDOW_TYPE_HANNING := 1;
  WINDOW_TYPE_HAMMING := 2;
  REAL_FFT_SELECT_VAL := 0;
  REAL_IFFT_SELECT_VAL := 1
|}.

(** The sum of [x[n] * c(w * n)] over the samples, from index [n]. *)
Fixpoint dft_sum (c : R -> R) (w : R) (x : list R) (n : Z) : R :=
  match x with
  | [] => 0%R
  | v :: r => (v * c (w * IZR n) + dft_sum c w r (n + 1))%R
  end.

(** Bin [k] of the packed spectrum of [x]; the slot of [imag[0]] carries the
    real bin N/2, as the kernel packs it. *)
Definition dft_bin (x : list R) (k : Z) : list R :=
  let w := (2 * PI * IZR k / IZR (Z.of_nat (length x)))%R in
  if k =? 0 then [dft_sum cos 0%R x 0; dft_sum cos PI x 0]
  else [dft_sum cos w x 0; (- dft_sum sin w x 0)%R].

(** Modelled from the spec: the forward transform of the FFT kernel
    ([arm_rfft_fast_f32] of CMSIS-DSP, whose code is not under [src/]).  The
    spec asks for a correct real-FFT engine behind the kernel interface,
    names the naive O(N^2) DFT as the reference, and fixes the output as the
    packed spectrum: the first N/2 bins of the DFT of the N samples,
    interleaved as real[0], imag[0], real[1], imag[1], ...  Bin 0 is real;
    its imaginary slot, on which the spec lets no caller rely, carries the
    real bin N/2, as CMSIS-DSP packs it: without that bin no inverse could
    return the samples. *)
Definition dft_packed (x : list R) : list R :=
  flat_map (dft_bin x) (map Z.of_nat (seq 0 (Nat.div2 (length x)))).

(** The sum of [real[k] * cos(w * k) - imag[k] * sin(w * k)] over the bins
    from [k], read off the packed pairs. *)
Fixpoint idft_sum (w : R) (X : list R) (k : Z) : R :=
  match X with
  | re :: im :: r =>
      (re * cos (w * IZR k) - im * sin (w * IZR k) + idft_sum w r (k + 1))%R
  | _ => 0%R
  end.

(** Modelled from the spec: the inverse transform of the same kernel, the
    inverse DFT of the Hermitian spectrum that the N/2 packed bins stand for,
    divided by N. *)
Definition idft_packed (X : list R) : list R :=
  map (fun n =>
         let w := (2 * PI * IZR n / IZR (Z.of_nat (length X)))%R in
         ((nth 0 X 0 + nth 1 X 0 * cos (PI * IZR n)
           + 2 * idft_sum w (skipn 2 X) 1) / IZR (Z.of_nat (length X)))%R)
      (map Z.of_nat (seq 0 (length X))).

(** One run of the reference kernel: the input buffer is left as it was. *)
Definition dft_run (ifftFlag : Z) (x : list R) : list R * list R :=
  if Nat.even (length x)
  then (x, if ifftFlag =? 0 then dft_packed x else idft_packed x)
  else (x, x).

(** The lengths [arm_rfft_fast_init_f32] accepts. *)
Definition rfft_supported (fftLen : Z) : bool :=
  existsb (Z.eqb fftLen) [32; 64; 128; 256; 512; 1024; 2048; 4096].

Definition dft_init (S : Z) (fftLen : Z) : Z * Z :=
  (if rfft_supported fftLen then ARM_MATH_SUCCESS else ARM_MATH_ARGUMENT_ERROR,
   fftLen).

Lemma dft_packed_length (x : list R) :
  Nat.even (length x) = true -> length (dft_packed x) = length x.
Proof.
  intros Hev. unfold dft_packed.
  assert (Hfm : forall l, length (flat_map (dft_bin x) l) = (2 * length l)%nat).
  { induction l as [|k l IH]; [reflexivity|].
    simpl flat_map. rewrite length_app, IH. unfold dft_bin.
    destruct (k =? 0); simpl; lia. }
  rewrite Hfm, length_map, length_seq.
  apply Nat.even_spec in Hev. destruct Hev as [h Hh].
  rewrite Hh, Nat.div2_double. lia.
Qed.

Lemma dft_run_length (ifftFlag : Z) (x : list R) :
  length (fst (dft_run ifftFlag x)) = length x /\
  length (snd (dft_run ifftFlag x)) = length x.
Proof.
  unfold dft_run. destruct (Nat.even (length x)) eqn:Hev; simpl; split; trivial.
  destruct (ifftFlag =? 0).
  - now apply dft_packed_length.
  - unfold idft_packed. now rewrite !length_map, length_seq.
Qed.

(** Modelled from the spec: the FFT kernel as the spec's injected
    capability with its two operations, initialise (for the supported
    lengths 32, 64, ..., 4096) and transform (forward or inverse, by the
    flag), computed without rounding. *)
Definition dft_kernel : @RealFFTKernel exact_arith :=
  @Build_RealFFTKernel exact_arith Z (fun S => S) dft_init
    (fun _ => dft_run) (fun _ => dft_run_length).




(** A block and a memory to run the window functions on: exact arithmetic,
    every cell [0] but the four at [200], which hold [3], [5], [7], [9]. *)
Definition w_blank : window_TypeDef := {| w_value := 0; w_length := 0; w_type := 0 |}.
Definition m_sample : @mem exact_arith :=
  @write_list exact_arith (fun _ => 0%R) 200 [3%R; 5%R; 7%R; 9%R].

(** A real-FFT block initialised for 32 samples with the reference kernel,
    scratch buffers at [1000] and [2000], and a memory that holds the unit
    impulse at [100]: [1] in the first cell, [0] everywhere else. *)
Definition rfft_blank : @rfft_f32_TypeDef exact_arith dft_kernel :=
  @Build_rfft_f32_TypeDef exact_arith dft_kernel 0 0 0 0.
Definition rfft_32 : @rfft_f32_TypeDef exact_arith dft_kernel :=
  snd (@CMSIS_DSP_real_FFT_f32_blockInit exact_arith dft_kernel rfft_blank 1000 2000 32).
Definition m_impulse : @mem exact_arith :=
  @write_list exact_arith (fun _ => 0%R) 100 [1%R].

(** A FIR block before initialisation, and a memory that holds two
    coefficients at [100] and three input samples at [400]. *)
Definition fir_blank : fir_f32_TypeDef :=
  {| fir_arm_struct := {| arm_fir_numTaps := 0; arm_fir_pState := 0; arm_fir_pCoeffs := 0 |};
     fir_numTap := 0;
     fir_blockSize := 0;
     fir_pCoeff := 0;
     fir_pState := 0;
     fir_tmpBuffer := 0 |}.
Definition m_fir : @mem exact_arith :=
  @write_list exact_arith
    (@write_list exact_arith (fun _ => 0%R) 100 [2%R; 3%R]) 400 [1%R; 4%R; 6%R].

(** The packed spectrum the reference kernel computes from the impulse. *)
Definition impulse_spectrum : list R :=
  @spectrum_of exact_arith std_header dft_kernel rfft_32 100 m_impulse.

(** One part in a million. *)
Definition close_enough (a b : R) : Prop := (Rabs (a - b) <= 1 / 1000000)%R.

(** ** Preconditions of the composed operations *)

Section Pipelines.
Context {A : CArith} {H : Header} {K : RealFFTKernel}.

(** What a caller owes who runs one magnitude operation into [out1] and
    then another into [out2], on the same input: besides what each call
    needs, the input and the first output overlap neither scratch buffer,
    and the two outputs do not overlap each other or the input. *)
Definition magnitude_sequence_ok
    (b : rfft_f32_TypeDef) (rDataIn out1 out2 : ptr) : Prop :=
  let N := rfft_length b in
  magnitude_buffers_ok b rDataIn out1 /\
  magnitude_buffers_ok b rDataIn out2 /\
  disjoint rDataIn N (rfft_tmpBuffer_2 b) N /\
  disjoint rDataIn N out1 (N / 2) /\
  disjoint out1 (N / 2) (rfft_tmpBuffer_1 b) N /\
  disjoint out1 (N / 2) out2 (N / 2).

End Pipelines.

(** ** What the filter computes *)

Section FIRReference.
Context {A : CArith}.
Local Open Scope cfloat_scope.

(** Sample [j] of the signal one call of the filter works on: the history,
    the [numTaps - 1] samples the state buffer keeps from the calls before,
    and after it the samples of the input buffer. *)
Definition fir_signal (m : mem) (pState pInput : ptr) (numTaps : Z) (j : Z) : float32_t :=
  if j <? numTaps - 1 then m (pState + j) else m (pInput + (j - (numTaps - 1))).

(** [acc + s[j] * c[i] + s[j+1] * c[i+1] + ...], [cnt] products added from
    the left, as the kernel's accumulator does. *)
Fixpoint tap_sum (s c : Z -> float32_t) (j i : Z) (cnt : nat) (acc : float32_t)
  : float32_t :=
  match cnt with
  | O => acc
  | S k => tap_sum s c (j + 1) (i + 1) k (acc +f s j *f c i)
  end.

(** Output sample [n]: the dot product of the [numTaps] signal samples from
    [n] on with the stored coefficients. *)
Definition fir_output (s c : Z -> float32_t) (numTaps : Z) (n : Z) : float32_t :=
  tap_sum s c n 0 (Z.to_nat numTaps) (f32_of_int 0).

(** The kernel after [k] samples of a block of [B], started in the memory
    [m0]: the state buffer holds the signal up to sample [T - 1 + k], the
    first [k] outputs are written, and nothing else has changed. *)
Definition fir_progress (st co src dst : ptr) (T B : Z) (m0 : mem) (k : Z) (m : mem)
  : Prop :=
  (forall j, 0 <= j < T - 1 + k -> m (st + j) = fir_signal m0 st src T j) /\
  (forall n, 0 <= n < k ->
     m (dst + n) = fir_output (fir_signal m0 st src T) (fun i => m0 (co + i)) T n) /\
  (forall a, ~ in_region st (T + B - 1) a -> ~ in_region dst B a -> m a = m0 a).

(** What a caller of apply owes for a block of [B] samples: the output
    shares no cell with the state, coefficient and scratch buffers, these
    three do not overlap each other, and the input does not overlap the
    scratch buffer. *)
Definition fir_buffers_ok (coeffs state tmp : ptr) (T B : Z) (pInput pOutput : ptr) : Prop :=
  disjoint pOutput B state (T + B - 1) /\
  disjoint pOutput B coeffs T /\
  disjoint pOutput B tmp B /\
  disjoint tmp B state (T + B - 1) /\
  disjoint tmp B coeffs T /\
  disjoint state (T + B - 1) coeffs T /\
  disjoint pInput B tmp B.

(** What a caller owes who filters [2 * B] samples, in one call or in two:
    the five buffers, sized for the longer block, share no cell. *)
Definition fir_stream_buffers_ok (coeffs state tmp : ptr) (T B : Z) (pInput pOutput : ptr) : Prop :=
  disjoint pOutput (2 * B) state (T + 2 * B - 1) /\
  disjoint pOutput (2 * B) coeffs T /\
  disjoint pOutput (2 * B) tmp (2 * B) /\
  disjoint pOutput (2 * B) pInput (2 * B) /\
  disjoint tmp (2 * B) state (T + 2 * B - 1) /\
  disjoint tmp (2 * B) coeffs T /\
  disjoint state (T + 2 * B - 1) coeffs T /\
  disjoint pInput (2 * B) tmp (2 * B) /\
  disjoint pInput (2 * B) state (T + 2 * B - 1).

End FIRReference.

(** [1.0f] *)
Definition binary32_one : spec_float := S754_finite false 8388608 (-23).

(** A binary32 value that is neither infinite nor NaN. *)
Definition binary32_finite (x : spec_float) : bool :=
  match x with
  | S754_zero _ | S754_finite _ _ _ => true
  | _ => false
  end.

(** * Properties *)

(** ** Memory *)

Ltac regions :=
  unfold disjoint, in_region, writes_behind in *; intros; lia.

Section MemoryFacts.
Context {A : CArith}.

Lemma store_eq (m : mem) (p : ptr) (v : float32_t) : store m p v p = v.
Proof. unfold store. now rewrite Z.eqb_refl. Qed.

Lemma store_neq (m : mem) (p q : ptr) (v : float32_t) :
  q <> p -> store m p v q = m q.
Proof. intros Hq. unfold store. now apply Z.eqb_neq in Hq as ->. Qed.

Lemma read_list_length (m : mem) (p : ptr) (n : nat) :
  length (read_list m p n) = n.
Proof. revert p. induction n as [|n IH]; intros p; simpl; [|rewrite IH]; reflexivity. Qed.

Lemma read_list_nth (m : mem) (n : nat) : forall (p : ptr) (k : nat) (d : float32_t),
  (k < n)%nat -> nth k (read_list m p n) d = m (p + Z.of_nat k).
Proof.
  induction n as [|n IH]; intros p k d Hk; [lia|].
  destruct k as [|k]; simpl read_list; simpl nth.
  - f_equal. lia.
  - rewrite IH by lia. f_equal. lia.
Qed.

Lemma write_list_out (l : list float32_t) : forall (m : mem) (p a : ptr),
  ~ in_region p (Z.of_nat (length l)) a -> write_list m p l a = m a.
Proof.
  induction l as [|v l IH]; intros m p a Ha; [reflexivity|].
  simpl write_list. simpl length in Ha.
  rewrite IH by regions. apply store_neq. regions.
Qed.

Lemma write_list_in (l : list float32_t) : forall (m : mem) (p : ptr) (k : nat) (d : float32_t),
  (k < length l)%nat -> write_list m p l (p + Z.of_nat k) = nth k l d.
Proof.
  induction l as [|v l IH]; intros m p k d Hk; simpl in Hk; [lia|].
  simpl write_list. destruct k as [|k].
  - rewrite write_list_out by regions.
    replace (p + Z.of_nat 0) with p by lia. apply store_eq.
  - replace (p + Z.of_nat (S k)) with (p + 1 + Z.of_nat k) by lia.
    rewrite (IH _ _ _ d) by lia. reflexivity.
Qed.

(** Reading back a buffer that was just written. *)
Lemma read_write_list (l : list float32_t) (m : mem) (p : ptr) :
  read_list (write_list m p l) p (length l) = l.
Proof.
  apply nth_ext with (d := f32_of_int 0) (d' := f32_of_int 0).
  - apply read_list_length.
  - intros k Hk. rewrite read_list_length in Hk.
    rewrite read_list_nth by assumption. now apply write_list_in.
Qed.

Lemma read_write_list_n (l : list float32_t) (m : mem) (p : ptr) (n : nat) :
  length l = n -> read_list (write_list m p l) p n = l.
Proof. intros <-. apply read_write_list. Qed.

Lemma for_loop_store_out (buf : ptr) (f : Z -> float32_t) (count : nat) :
  forall (n0 : Z) (m : mem) (a : ptr),
  ~ in_region (buf + n0) (Z.of_nat count) a ->
  for_loop n0 count (fun n m => store m (buf + n) (f n)) m a = m a.
Proof.
  induction count as [|c IH]; intros n0 m a Ha; [reflexivity|].
  simpl for_loop. rewrite IH by regions. apply store_neq. regions.
Qed.

Lemma for_loop_store_in (buf : ptr) (f : Z -> float32_t) (count : nat) :
  forall (n0 : Z) (m : mem) (i : Z),
  n0 <= i < n0 + Z.of_nat count ->
  for_loop n0 count (fun n m => store m (buf + n) (f n)) m (buf + i) = f i.
Proof.
  induction count as [|c IH]; intros n0 m i Hi; [lia|].
  simpl for_loop. destruct (Z.eq_dec i n0) as [->|Hne].
  - rewrite for_loop_store_out by regions. apply store_eq.
  - apply IH. lia.
Qed.

End MemoryFacts.

(** ** Window functions *)

Section WindowFacts.
Context {A : CArith} {H : Header}.
Local Open Scope cfloat_scope.

Lemma arm_mult_f32_out (blkCnt : nat) : forall (m : mem) (pSrcA pSrcB pDst a : ptr),
  ~ in_region pDst (Z.of_nat blkCnt) a ->
  arm_mult_f32 m pSrcA pSrcB pDst blkCnt a = m a.
Proof.
  induction blkCnt as [|c IH]; intros m pA pB pD a Ha; [reflexivity|].
  simpl arm_mult_f32. rewrite IH by regions. apply store_neq. regions.
Qed.

Lemma arm_mult_f32_in (blkCnt : nat) : forall (m : mem) (pSrcA pSrcB pDst : ptr) (k : Z),
  writes_behind pDst pSrcA (Z.of_nat blkCnt) ->
  writes_behind pDst pSrcB (Z.of_nat blkCnt) ->
  0 <= k < Z.of_nat blkCnt ->
  arm_mult_f32 m pSrcA pSrcB pDst blkCnt (pDst + k) = m (pSrcA + k) *f m (pSrcB + k).
Proof.
  induction blkCnt as [|c IH]; intros m pA pB pD k HA HB Hk; [lia|].
  simpl arm_mult_f32. destruct (Z.eq_dec k 0) as [->|Hne].
  - rewrite arm_mult_f32_out by regions.
    rewrite !Z.add_0_r. apply store_eq.
  - replace (pD + k) with (pD + 1 + (k - 1)) by lia.
    rewrite IH.
    + replace (pA + 1 + (k - 1)) with (pA + k) by lia.
      replace (pB + 1 + (k - 1)) with (pB + k) by lia.
      rewrite !store_neq; [reflexivity| |].
      * intros E. apply (HB 0 k); lia.
      * intros E. apply (HA 0 k); lia.
    + intros i j Hi Hj E. apply (HA (i + 1) (j + 1)); lia.
    + intros i j Hi Hj E. apply (HB (i + 1) (j + 1)); lia.
    + lia.
Qed.

(** The block after initialisation, whatever the kind and the length. *)
Lemma windowFunction_blockInit_block (w : window_TypeDef) (buf : ptr) (ty L : Z) (m : mem) :
  fst (CMSIS_DSP_windowFunction_blockInit w buf ty L m)
  = (ret_void, {| w_value := buf; w_length := L; w_type := ty |}).
Proof.
  unfold CMSIS_DSP_windowFunction_blockInit. cbn [w_type w_length w_value].
  destruct (ty =? WINDOW_TYPE_RECTANGULAR); [reflexivity|].
  destruct (ty =? WINDOW_TYPE_HANNING); [reflexivity|].
  destruct (ty =? WINDOW_TYPE_HAMMING); reflexivity.
Qed.

Lemma windowFunction_blockInit_rectangular (w : window_TypeDef) (buf : ptr) (L : Z) (m : mem) :
  snd (CMSIS_DSP_windowFunction_blockInit w buf WINDOW_TYPE_RECTANGULAR L m)
  = for_loop 0 (Z.to_nat L) (fun n m => store m (buf + n) (f32_of_int 1)) m.
Proof.
  unfold CMSIS_DSP_windowFunction_blockInit. cbn [w_type w_length w_value].
  now rewrite Z.eqb_refl.
Qed.

Lemma windowFunction_blockInit_hanning (w : window_TypeDef) (buf : ptr) (L : Z) (m : mem) :
  WINDOW_TYPE_HANNING <> WINDOW_TYPE_RECTANGULAR ->
  snd (CMSIS_DSP_windowFunction_blockInit w buf WINDOW_TYPE_HANNING L m)
  = for_loop 0 (Z.to_nat L) (fun n m => store m (buf + n) (hanning_value n L)) m.
Proof.
  intros Hne. unfold CMSIS_DSP_windowFunction_blockInit. cbn [w_type w_length w_value].
  apply Z.eqb_neq in Hne as ->. now rewrite Z.eqb_refl.
Qed.

Lemma windowFunction_blockInit_hamming (w : window_TypeDef) (buf : ptr) (L : Z) (m : mem) :
  WINDOW_TYPE_HAMMING <> WINDOW_TYPE_RECTANGULAR ->
  WINDOW_TYPE_HAMMING <> WINDOW_TYPE_HANNING ->
  snd (CMSIS_DSP_windowFunction_blockInit w buf WINDOW_TYPE_HAMMING L m)
  = for_loop 0 (Z.to_nat L) (fun n m => store m (buf + n) (hamming_value n L)) m.
Proof.
  intros Hr Hh. unfold CMSIS_DSP_windowFunction_blockInit. cbn [w_type w_length w_value].
  apply Z.eqb_neq in Hr as ->. apply Z.eqb_neq in Hh as ->. now rewrite Z.eqb_refl.
Qed.

Lemma windowFunction_blockInit_other (w : window_TypeDef) (buf : ptr) (ty L : Z) (m : mem) :
  ty <> WINDOW_TYPE_RECTANGULAR -> ty <> WINDOW_TYPE_HANNING -> ty <> WINDOW_TYPE_HAMMING ->
  snd (CMSIS_DSP_windowFunction_blockInit w buf ty L m) = m.
Proof.
  intros Hr Hn Hm. unfold CMSIS_DSP_windowFunction_blockInit. cbn [w_type w_length w_value].
  apply Z.eqb_neq in Hr as ->. apply Z.eqb_neq in Hn as ->.
  now apply Z.eqb_neq in Hm as ->.
Qed.

Lemma windowFunction_blockInit_zero (w : window_TypeDef) (buf : ptr) (ty : Z) (m : mem) :
  snd (CMSIS_DSP_windowFunction_blockInit w buf ty 0 m) = m.
Proof.
  unfold CMSIS_DSP_windowFunction_blockInit. cbn [w_type w_length w_value].
  destruct (ty =? WINDOW_TYPE_RECTANGULAR); [reflexivity|].
  destruct (ty =? WINDOW_TYPE_HANNING); [reflexivity|].
  destruct (ty =? WINDOW_TYPE_HAMMING); reflexivity.
Qed.

(** C3, as amended: window initialisation is a [void] function with no
    failure path.  For every length, zero included, it hands back no status
    and stores the buffer pointer, the length and the kind in the block; with
    length zero it writes no coefficient. *)
Theorem windowFunction_blockInit_returns_no_status
    (w : window_TypeDef) (buf : ptr) (ty L : Z) (m : mem) :
  fst (fst (CMSIS_DSP_windowFunction_blockInit w buf ty L m)) = ret_void /\
  snd (fst (CMSIS_DSP_windowFunction_blockInit w buf ty L m))
    = {| w_value := buf; w_length := L; w_type := ty |} /\
  snd (CMSIS_DSP_windowFunction_blockInit w buf ty 0 m) = m.
Proof.
  rewrite windowFunction_blockInit_block. repeat split.
  apply windowFunction_blockInit_zero.
Qed.

(** C5: for every length [L > 0] and every index [n] in [[0, L)], initialising
    a window block with the Hanning kind sets the coefficient at [n] to
    0.5 * (1 - cos(2 * pi * n / L)), evaluated as the C expression is: the
    argument of [cos] in [float], the rest in [double], rounded to
    [float32_t] by the store. *)
Theorem hanning_window_coefficients
    (w : window_TypeDef) (buf : ptr) (L : Z) (m : mem) (n : Z) :
  WINDOW_TYPE_HANNING <> WINDOW_TYPE_RECTANGULAR ->
  0 < L -> 0 <= n < L ->
  snd (CMSIS_DSP_windowFunction_blockInit w buf WINDOW_TYPE_HANNING L m) (buf + n)
  = f32_of_f64
      (lit_0_5 *d
       (f64_of_int 1 -d
        libm_cos
          (f64_of_f32
             (f32_of_int 2 *f f32_of_f64 M_PI *f f32_of_int n /f f32_of_int L)))).
Proof.
  intros Hne HL Hn. rewrite windowFunction_blockInit_hanning by assumption.
  rewrite for_loop_store_in by lia. reflexivity.
Qed.

(** C6: for every length [L > 0] and every index [n] in [[0, L)], initialising
    a window block with the Hamming kind sets the coefficient at [n] to
    0.54 - 0.46 * cos(2 * pi * n / L), evaluated as the C expression is. *)
Theorem hamming_window_coefficients
    (w : window_TypeDef) (buf : ptr) (L : Z) (m : mem) (n : Z) :
  WINDOW_TYPE_HAMMING <> WINDOW_TYPE_RECTANGULAR ->
  WINDOW_TYPE_HAMMING <> WINDOW_TYPE_HANNING ->
  0 < L -> 0 <= n < L ->
  snd (CMSIS_DSP_windowFunction_blockInit w buf WINDOW_TYPE_HAMMING L m) (buf + n)
  = f32_of_f64
      (lit_0_54 -d
       lit_0_46 *d
       libm_cos
         (f64_of_f32
            (f32_of_int 2 *f f32_of_f64 M_PI *f f32_of_int n /f f32_of_int L))).
Proof.
  intros Hr Hh HL Hn. rewrite windowFunction_blockInit_hamming by assumption.
  rewrite for_loop_store_in by lia. reflexivity.
Qed.

(** X3: the rectangular window.  Every coefficient is [1], and a later apply
    multiplies each input sample by [1], in place or into another buffer. *)
Theorem rectangular_window_is_all_ones
    (w : window_TypeDef) (buf : ptr) (L : Z) (m : mem) (pInput pOutput : ptr) (n : Z) :
  0 <= n < L ->
  disjoint pInput L buf L ->
  writes_behind pOutput pInput L ->
  writes_behind pOutput buf L ->
  snd (CMSIS_DSP_windowFunction_blockInit w buf WINDOW_TYPE_RECTANGULAR L m) (buf + n)
    = f32_of_int 1 /\
  snd (CMSIS_DSP_windowFunciton_apply
         (snd (fst (CMSIS_DSP_windowFunction_blockInit w buf WINDOW_TYPE_RECTANGULAR L m)))
         pInput pOutput
         (snd (CMSIS_DSP_windowFunction_blockInit w buf WINDOW_TYPE_RECTANGULAR L m)))
      (pOutput + n)
    = m (pInput + n) *f f32_of_int 1.
Proof.
  intros Hn Hdis HA HB.
  rewrite windowFunction_blockInit_block, windowFunction_blockInit_rectangular.
  split; [now rewrite for_loop_store_in by lia|].
  unfold CMSIS_DSP_windowFunciton_apply. cbn [snd w_value w_length].
  assert (HL : Z.of_nat (Z.to_nat L) = L) by lia.
  rewrite arm_mult_f32_in; rewrite ?HL; try assumption.
  rewrite for_loop_store_in by lia.
  rewrite for_loop_store_out; [reflexivity|].
  rewrite HL. intros Hin. apply (Hdis (pInput + n)); regions.
Qed.

(** C9: with a type selector that is none of the three window kinds,
    initialisation stores the selector, the length and the buffer pointer in
    the block and leaves the memory, hence every coefficient, as it was; a
    later apply multiplies the input by the values the buffer held before. *)
Theorem windowFunction_blockInit_unknown_type_keeps_buffer
    (w : window_TypeDef) (buf : ptr) (ty L : Z) (m : mem) :
  ty <> WINDOW_TYPE_RECTANGULAR ->
  ty <> WINDOW_TYPE_HANNING ->
  ty <> WINDOW_TYPE_HAMMING ->
  snd (fst (CMSIS_DSP_windowFunction_blockInit w buf ty L m))
    = {| w_value := buf; w_length := L; w_type := ty |} /\
  snd (CMSIS_DSP_windowFunction_blockInit w buf ty L m) = m /\
  forall (pInput pOutput : ptr) (n : Z),
    writes_behind pOutput pInput L ->
    writes_behind pOutput buf L ->
    0 <= n < L ->
    snd (CMSIS_DSP_windowFunciton_apply
           (snd (fst (CMSIS_DSP_windowFunction_blockInit w buf ty L m)))
           pInput pOutput
           (snd (CMSIS_DSP_windowFunction_blockInit w buf ty L m)))
        (pOutput + n)
    = m (pInput + n) *f m (buf + n).
Proof.
  intros Hr Hn Hm.
  rewrite windowFunction_blockInit_block, windowFunction_blockInit_other by assumption.
  repeat split. intros pIn pOut n HA HB Hrange.
  unfold CMSIS_DSP_windowFunciton_apply. cbn [snd w_value w_length].
  assert (HL : Z.of_nat (Z.to_nat L) = L) by lia.
  apply arm_mult_f32_in; rewrite ?HL; assumption.
Qed.

End WindowFacts.

(** C3 fails as stated: called with length zero, window initialisation hands
    no status back to its caller, so no error either. *)
Lemma windowFunction_blockInit_zero_length_no_error :
  ~ exists status : Z,
      fst (fst (@CMSIS_DSP_windowFunction_blockInit exact_arith std_header
                  w_blank 100 (@WINDOW_TYPE_HANNING std_header) 0 m_sample))
      = ret_status status.
Proof. intros [status Hs]. discriminate Hs. Qed.

Lemma hanning_window_coefficients_witness :
  snd (@CMSIS_DSP_windowFunction_blockInit exact_arith std_header
         w_blank 100 (@WINDOW_TYPE_HANNING std_header) 4 m_sample) (100 + 1)
  = (5 / 10 * (1 - cos (2 * PI * 1 / 4)))%R.
Proof.
  apply (@hanning_window_coefficients exact_arith std_header
           w_blank 100 4 m_sample 1); [discriminate | lia | lia].
Defined.

Lemma hamming_window_coefficients_witness :
  snd (@CMSIS_DSP_windowFunction_blockInit exact_arith std_header
         w_blank 100 (@WINDOW_TYPE_HAMMING std_header) 4 m_sample) (100 + 3)
  = (54 / 100 - 46 / 100 * cos (2 * PI * 3 / 4))%R.
Proof.
  apply (@hamming_window_coefficients exact_arith std_header
           w_blank 100 4 m_sample 3); [discriminate | discriminate | lia | lia].
Defined.

Lemma rectangular_window_witness :
  snd (@CMSIS_DSP_windowFunction_blockInit exact_arith std_header
         w_blank 100 (@WINDOW_TYPE_RECTANGULAR std_header) 4 m_sample) (100 + 2)
    = 1%R /\
  snd (@CMSIS_DSP_windowFunciton_apply exact_arith
         (snd (fst (@CMSIS_DSP_windowFunction_blockInit exact_arith std_header
                      w_blank 100 (@WINDOW_TYPE_RECTANGULAR std_header) 4 m_sample)))
         200 200
         (snd (@CMSIS_DSP_windowFunction_blockInit exact_arith std_header
                 w_blank 100 (@WINDOW_TYPE_RECTANGULAR std_header) 4 m_sample)))
      (200 + 2)
    = (7 * 1)%R.
Proof.
  apply (@rectangular_window_is_all_ones exact_arith std_header
           w_blank 100 4 m_sample 200 200 2); regions.
Defined.

Lemma windowFunction_blockInit_unknown_type_witness :
  snd (@CMSIS_DSP_windowFunction_blockInit exact_arith std_header
         w_blank 200 7 4 m_sample) = m_sample /\
  snd (@CMSIS_DSP_windowFunciton_apply exact_arith
         (snd (fst (@CMSIS_DSP_windowFunction_blockInit exact_arith std_header
                      w_blank 200 7 4 m_sample)))
         200 300
         (snd (@CMSIS_DSP_windowFunction_blockInit exact_arith std_header
                 w_blank 200 7 4 m_sample)))
      (300 + 2)
  = (7 * 7)%R.
Proof.
  destruct (@windowFunction_blockInit_unknown_type_keeps_buffer
              exact_arith std_header w_blank 200 7 4 m_sample)
    as (_ & Hmem & Happly); [discriminate | discriminate | discriminate |].
  split; [exact Hmem|].
  apply (Happly 200 300 2); [regions | regions | lia].
Defined.

(** ** Real FFT and magnitude *)

Section RealFFTFacts.
Context {A : CArith} {H : Header} {K : RealFFTKernel}.
Local Open Scope cfloat_scope.

Lemma memcpy_floats (m : mem) (dst src : ptr) (n : Z) :
  memcpy m dst src (sizeof_float32_t * n)
  = write_list m dst (read_list m src (Z.to_nat n)).
Proof.
  unfold memcpy, sizeof_float32_t.
  now rewrite Z.mul_comm, Z.div_mul by discriminate.
Qed.

Lemma cmplx_loop_out (g : float32_t -> float32_t -> float32_t) (blkCnt : nat) :
  forall (m : mem) (pSrc pDst a : ptr),
  ~ in_region pDst (Z.of_nat blkCnt) a ->
  cmplx_loop g m pSrc pDst blkCnt a = m a.
Proof.
  induction blkCnt as [|c IH]; intros m pS pD a Ha; [reflexivity|].
  simpl cmplx_loop. rewrite IH by regions. apply store_neq. regions.
Qed.

Lemma cmplx_loop_in (g : float32_t -> float32_t -> float32_t) (blkCnt : nat) :
  forall (m : mem) (pSrc pDst : ptr) (k : Z),
  disjoint pDst (Z.of_nat blkCnt) pSrc (2 * Z.of_nat blkCnt) ->
  0 <= k < Z.of_nat blkCnt ->
  cmplx_loop g m pSrc pDst blkCnt (pDst + k)
  = g (m (pSrc + 2 * k)) (m (pSrc + (2 * k + 1))).
Proof.
  induction blkCnt as [|c IH]; intros m pS pD k Hd Hk; [lia|].
  simpl cmplx_loop. destruct (Z.eq_dec k 0) as [->|Hne].
  - rewrite cmplx_loop_out by regions.
    rewrite Z.add_0_r, store_eq. now rewrite Z.add_0_r.
  - replace (pD + k) with (pD + 1 + (k - 1)) by lia.
    rewrite IH.
    + replace (pS + 2 + 2 * (k - 1)) with (pS + 2 * k) by lia.
      replace (pS + 2 + (2 * (k - 1) + 1)) with (pS + (2 * k + 1)) by lia.
      rewrite !store_neq; [reflexivity| |].
      * intros E. apply (Hd pD); regions.
      * intros E. apply (Hd pD); regions.
    + intros a Ha Hb. apply (Hd a); regions.
    + lia.
Qed.

(** The second scratch buffer after the copy and the forward transform holds
    the packed spectrum of the input, and the loop over its bins writes
    [g (real[k], imag[k])] to the output. *)
Lemma spectrum_pipeline (g : float32_t -> float32_t -> float32_t)
    (b : rfft_f32_TypeDef) (rDataIn out : ptr) (m : mem) (k : Z) :
  rfft_configured b ->
  magnitude_buffers_ok b rDataIn out ->
  0 <= k < rfft_length b / 2 ->
  cmplx_loop g
    (arm_rfft_fast_f32 (rfft_arm_struct b)
       (memcpy m (rfft_tmpBuffer_1 b) rDataIn (sizeof_float32_t * rfft_length b))
       (rfft_tmpBuffer_1 b) (rfft_tmpBuffer_2 b) REAL_FFT_SELECT_VAL)
    (rfft_tmpBuffer_2 b) out (Z.to_nat (rfft_length b / 2)) (out + k)
  = g (bin_real (spectrum_of b rDataIn m) k) (bin_imag (spectrum_of b rDataIn m) k).
Proof.
  intros [Hlen HN] (_ & _ & Hout) Hk.
  set (N := rfft_length b) in *.
  assert (Hhalf : 2 * (N / 2) <= N) by (apply Z.mul_div_le; lia).
  assert (Hcnt : Z.of_nat (Z.to_nat (N / 2)) = N / 2) by lia.
  rewrite cmplx_loop_in; rewrite ?Hcnt;
    [ | intros a Ha Hb; apply (Hout a); regions | lia].
  unfold arm_rfft_fast_f32. rewrite Hlen. fold N.
  rewrite memcpy_floats.
  assert (Hcopy : read_list (write_list m (rfft_tmpBuffer_1 b)
                               (read_list m rDataIn (Z.to_nat N)))
                    (rfft_tmpBuffer_1 b) (Z.to_nat N)
                  = read_list m rDataIn (Z.to_nat N)).
  { rewrite <- (read_list_length m rDataIn (Z.to_nat N)) at 2.
    apply read_write_list. }
  rewrite Hcopy.
  change (snd (rfft_fast (rfft_arm_struct b) REAL_FFT_SELECT_VAL
                 (read_list m rDataIn (Z.to_nat N))))
    with (spectrum_of b rDataIn m).
  assert (HX : length (spectrum_of b rDataIn m) = Z.to_nat N).
  { unfold spectrum_of.
    rewrite (proj2 (rfft_fast_length _ _ _)). apply read_list_length. }
  unfold bin_real, bin_imag.
  replace (2 * k) with (Z.of_nat (Z.to_nat (2 * k))) at 1 by lia.
  replace (2 * k + 1) with (Z.of_nat (Z.to_nat (2 * k + 1))) at 1 by lia.
  rewrite !(write_list_in _ _ _ _ (f32_of_int 0)) by lia.
  reflexivity.
Qed.

Lemma magnitude_FFT_apply_value
    (b : rfft_f32_TypeDef) (rDataIn magFFTOut : ptr) (m : mem) (k : Z) :
  rfft_configured b ->
  magnitude_buffers_ok b rDataIn magFFTOut ->
  0 <= k < rfft_length b / 2 ->
  snd (CMSIS_DSP_magnitude_FFT_f32_apply b rDataIn magFFTOut m) (magFFTOut + k)
  = arm_sqrt_f32
      (cmplx_norm2 (bin_real (spectrum_of b rDataIn m) k)
                   (bin_imag (spectrum_of b rDataIn m) k)).
Proof.
  intros Hb Hok Hk. unfold CMSIS_DSP_magnitude_FFT_f32_apply, arm_cmplx_mag_f32.
  cbn [snd]. now rewrite spectrum_pipeline.
Qed.

Lemma magnitudeSquare_FFT_apply_value
    (b : rfft_f32_TypeDef) (rDataIn magSqFFTOut : ptr) (m : mem) (k : Z) :
  rfft_configured b ->
  magnitude_buffers_ok b rDataIn magSqFFTOut ->
  0 <= k < rfft_length b / 2 ->
  snd (CMSIS_DSP_magnitudeSquare_FFT_f32_apply b rDataIn magSqFFTOut m) (magSqFFTOut + k)
  = cmplx_norm2 (bin_real (spectrum_of b rDataIn m) k)
                (bin_imag (spectrum_of b rDataIn m) k).
Proof.
  intros Hb Hok Hk.
  unfold CMSIS_DSP_magnitudeSquare_FFT_f32_apply, arm_cmplx_mag_squared_f32.
  cbn [snd]. now rewrite spectrum_pipeline.
Qed.

(** What one transform leaves in its output buffer: the kernel's output on
    the cells of the input. *)
Lemma transform_apply_output (flag : Z) (b : rfft_f32_TypeDef) (pIn pOut : ptr) (m : mem) :
  rfft_configured b ->
  read_list
    (arm_rfft_fast_f32 (rfft_arm_struct b)
       (memcpy m (rfft_tmpBuffer_1 b) pIn (sizeof_float32_t * rfft_length b))
       (rfft_tmpBuffer_1 b) pOut flag)
    pOut (Z.to_nat (rfft_length b))
  = snd (rfft_fast (rfft_arm_struct b) flag
           (read_list m pIn (Z.to_nat (rfft_length b)))).
Proof.
  intros [Hlen HN]. unfold arm_rfft_fast_f32. rewrite Hlen, memcpy_floats.
  set (n := Z.to_nat (rfft_length b)).
  assert (Hcopy : read_list (write_list m (rfft_tmpBuffer_1 b) (read_list m pIn n))
                    (rfft_tmpBuffer_1 b) n
                  = read_list m pIn n).
  { apply read_write_list_n, read_list_length. }
  rewrite Hcopy.
  set (r := rfft_fast (rfft_arm_struct b) flag (read_list m pIn n)).
  assert (Hr : length (snd r) = n).
  { unfold r. rewrite (proj2 (rfft_fast_length _ _ _)). apply read_list_length. }
  now apply read_write_list_n.
Qed.

(** X2: a transform writes the first scratch buffer and its output buffer,
    and nothing else: the caller's input is kept when it overlaps neither. *)
Theorem real_FFT_apply_frame
    (b : rfft_f32_TypeDef) (rDataIn fftOut : ptr) (m : mem) (a : ptr) :
  rfft_configured b ->
  transform_buffers_ok b rDataIn fftOut ->
  ~ in_region (rfft_tmpBuffer_1 b) (rfft_length b) a ->
  ~ in_region fftOut (rfft_length b) a ->
  snd (CMSIS_DSP_real_FFT_f32_apply b rDataIn fftOut m) a = m a.
Proof.
  intros [Hlen HN] _ Htmp Hout.
  unfold CMSIS_DSP_real_FFT_f32_apply, arm_rfft_fast_f32. cbn [snd].
  rewrite Hlen, memcpy_floats.
  set (n := Z.to_nat (rfft_length b)).
  set (r := rfft_fast _ _ _).
  assert (Hr : length (fst r) = n /\ length (snd r) = n).
  { unfold r. destruct (rfft_fast_length (rfft_arm_struct b) REAL_FFT_SELECT_VAL
                          (read_list (write_list m (rfft_tmpBuffer_1 b) (read_list m rDataIn n))
                                     (rfft_tmpBuffer_1 b) n)) as [H1 H2].
    rewrite H1, H2, read_list_length. now split. }
  destruct Hr as [Hr1 Hr2].
  rewrite !write_list_out; rewrite ?Hr1, ?Hr2, ?read_list_length; unfold n;
    try reflexivity; intros Hin; (apply Htmp || apply Hout); regions.
Qed.

(** X1: the forward transform followed by the inverse transform, on the same
    block, leaves in the last output buffer what the kernel's inverse
    computes from what the kernel's forward computes from the input: the two
    wrappers add nothing of their own to the round trip.  So the samples come
    back within whatever tolerance the kernel's own round trip has. *)
Theorem real_FFT_then_IFFT_is_the_kernel_round_trip
    (b : rfft_f32_TypeDef) (rDataIn fftOut ifftOut : ptr) (m : mem) :
  rfft_configured b ->
  transform_buffers_ok b rDataIn fftOut ->
  transform_buffers_ok b fftOut ifftOut ->
  read_list
    (snd (CMSIS_DSP_real_IFFT_f32_apply b fftOut ifftOut
            (snd (CMSIS_DSP_real_FFT_f32_apply b rDataIn fftOut m))))
    ifftOut (Z.to_nat (rfft_length b))
  = snd (rfft_fast (rfft_arm_struct b) REAL_IFFT_SELECT_VAL
           (snd (rfft_fast (rfft_arm_struct b) REAL_FFT_SELECT_VAL
                   (read_list m rDataIn (Z.to_nat (rfft_length b)))))) /\
  forall close : list float32_t -> list float32_t -> Prop,
    (forall x : list float32_t,
       close (snd (rfft_fast (rfft_arm_struct b) REAL_IFFT_SELECT_VAL
                     (snd (rfft_fast (rfft_arm_struct b) REAL_FFT_SELECT_VAL x)))) x) ->
    close
      (read_list
         (snd (CMSIS_DSP_real_IFFT_f32_apply b fftOut ifftOut
                 (snd (CMSIS_DSP_real_FFT_f32_apply b rDataIn fftOut m))))
         ifftOut (Z.to_nat (rfft_length b)))
      (read_list m rDataIn (Z.to_nat (rfft_length b))).
Proof.
  intros Hb _ _.
  unfold CMSIS_DSP_real_IFFT_f32_apply, CMSIS_DSP_real_FFT_f32_apply. cbn [snd].
  rewrite !transform_apply_output by assumption.
  split; [reflexivity|]. intros close Hclose. apply Hclose.
Qed.

(** C10: initialisation stores the length and both scratch pointers in the
    block and only then calls the kernel initialiser, on the instance inside
    the block.  So on every input for which the kernel initialiser reports a
    failure, the status handed back is that failure and the block holds the
    new configuration all the same. *)
Theorem real_FFT_blockInit_not_atomic
    (b : rfft_f32_TypeDef) (set_tmp1 set_tmp2 : ptr) (setLength : Z) :
  fst (arm_rfft_fast_init_f32 (rfft_arm_struct b) setLength) <> ARM_MATH_SUCCESS ->
  fst (CMSIS_DSP_real_FFT_f32_blockInit b set_tmp1 set_tmp2 setLength)
    = ret_status (to_int8 (fst (arm_rfft_fast_init_f32 (rfft_arm_struct b) setLength))) /\
  rfft_length (snd (CMSIS_DSP_real_FFT_f32_blockInit b set_tmp1 set_tmp2 setLength))
    = setLength /\
  rfft_tmpBuffer_1 (snd (CMSIS_DSP_real_FFT_f32_blockInit b set_tmp1 set_tmp2 setLength))
    = set_tmp1 /\
  rfft_tmpBuffer_2 (snd (CMSIS_DSP_real_FFT_f32_blockInit b set_tmp1 set_tmp2 setLength))
    = set_tmp2.
Proof. intros _. unfold CMSIS_DSP_real_FFT_f32_blockInit. cbn. repeat split. Qed.

(** C1, as amended: the magnitude operation takes a real sample buffer of
    the configured length N, not a packed spectrum.  It copies the samples to
    the first scratch buffer, runs the forward transform itself into the
    second, and writes sqrt(real[k]^2 + imag[k]^2) of the bins of that
    transform to output[k], for every k in [0, N/2). *)
Theorem magnitude_FFT_apply_transforms_then_takes_magnitudes
    (b : rfft_f32_TypeDef) (rDataIn magFFTOut : ptr) (m : mem) (k : Z) :
  rfft_configured b ->
  magnitude_buffers_ok b rDataIn magFFTOut ->
  0 <= k < rfft_length b / 2 ->
  snd (CMSIS_DSP_magnitude_FFT_f32_apply b rDataIn magFFTOut m) (magFFTOut + k)
  = arm_sqrt_f32
      (bin_real (spectrum_of b rDataIn m) k *f bin_real (spectrum_of b rDataIn m) k
       +f bin_imag (spectrum_of b rDataIn m) k *f bin_imag (spectrum_of b rDataIn m) k).
Proof. exact (magnitude_FFT_apply_value b rDataIn magFFTOut m k). Qed.

(** C7: the magnitude and the magnitude-squared operations, run on the same
    block and the same input, read the same bins of the same spectrum: at
    every bin k in [0, N/2) the magnitude is the square root of what the
    squared magnitude stores.  Hence the k-th magnitude, squared, is within
    tolerance of the k-th squared magnitude, for every tolerance that the
    rounding of [arm_sqrt_f32] and of one product meets. *)
Theorem magnitude_consistency
    (b : rfft_f32_TypeDef) (rDataIn magFFTOut magSqFFTOut : ptr) (m : mem) (k : Z) :
  rfft_configured b ->
  magnitude_buffers_ok b rDataIn magFFTOut ->
  magnitude_buffers_ok b rDataIn magSqFFTOut ->
  0 <= k < rfft_length b / 2 ->
  snd (CMSIS_DSP_magnitude_FFT_f32_apply b rDataIn magFFTOut m) (magFFTOut + k)
  = arm_sqrt_f32
      (snd (CMSIS_DSP_magnitudeSquare_FFT_f32_apply b rDataIn magSqFFTOut m)
         (magSqFFTOut + k)) /\
  forall close : float32_t -> float32_t -> Prop,
    (forall real imag : float32_t,
       close (arm_sqrt_f32 (cmplx_norm2 real imag) *f arm_sqrt_f32 (cmplx_norm2 real imag))
             (cmplx_norm2 real imag)) ->
    close
      (snd (CMSIS_DSP_magnitude_FFT_f32_apply b rDataIn magFFTOut m) (magFFTOut + k)
       *f snd (CMSIS_DSP_magnitude_FFT_f32_apply b rDataIn magFFTOut m) (magFFTOut + k))
      (snd (CMSIS_DSP_magnitudeSquare_FFT_f32_apply b rDataIn magSqFFTOut m)
         (magSqFFTOut + k)).
Proof.
  intros Hb Hmag Hsq Hk.
  rewrite magnitude_FFT_apply_value, magnitudeSquare_FFT_apply_value by assumption.
  split; [reflexivity|].
  intros close Hclose. apply Hclose.
Qed.

End RealFFTFacts.

(** ** The reference kernel on the unit impulse *)

Lemma dft_sum_zeros (c : R -> R) (w : R) (r : nat) : forall n : Z,
  dft_sum c w (repeat 0%R r) n = 0%R.
Proof.
  induction r as [|r IH]; intros n; simpl; [reflexivity|].
  rewrite IH. ring.
Qed.

Lemma dft_sum_impulse (c : R -> R) (w : R) (r : nat) :
  dft_sum c w (1%R :: repeat 0%R r) 0 = c 0%R.
Proof.
  simpl. rewrite dft_sum_zeros, Rmult_0_r. ring.
Qed.

Lemma rfft_32_configured :
  @rfft_configured exact_arith dft_kernel rfft_32.
Proof. split; [reflexivity | discriminate]. Qed.

Lemma rfft_32_buffers_ok (out : Z) :
  3000 <= out ->
  @magnitude_buffers_ok exact_arith dft_kernel rfft_32 100 out.
Proof.
  intros Hout. unfold magnitude_buffers_ok. cbn.
  repeat split; unfold disjoint, in_region; intros a Ha Hb; lia.
Qed.

(** The spectrum of the unit impulse is flat: bin 1 has real part [1] and
    imaginary part [0]. *)
Lemma impulse_bin_1 :
  @bin_real exact_arith impulse_spectrum 1 = 1%R /\
  @bin_imag exact_arith impulse_spectrum 1 = 0%R.
Proof.
  split.
  - change (dft_sum cos (2 * PI * 1 / 32)%R (1%R :: repeat 0%R 31) 0 = 1%R).
    rewrite dft_sum_impulse. apply cos_0.
  - change ((- dft_sum sin (2 * PI * 1 / 32)%R (1%R :: repeat 0%R 31) 0)%R = 0%R).
    rewrite dft_sum_impulse, sin_0. ring.
Qed.

Lemma magnitude_of_impulse_bin_1 (out : Z) :
  3000 <= out ->
  snd (@CMSIS_DSP_magnitude_FFT_f32_apply exact_arith std_header dft_kernel
         rfft_32 100 out m_impulse) (out + 1) = 1%R.
Proof.
  intros Hout.
  rewrite magnitude_FFT_apply_value;
    [ | exact rfft_32_configured | now apply rfft_32_buffers_ok | cbn; lia].
  fold impulse_spectrum. destruct impulse_bin_1 as [-> ->].
  change (sqrt (1 * 1 + 0 * 0) = 1)%R.
  replace (1 * 1 + 0 * 0)%R with 1%R by ring. apply sqrt_1.
Qed.

(** C1 fails as stated: the operation does not take magnitudes of the
    buffer it is given.  On the unit impulse of 32 samples, bin 1 of the
    output is [1], the magnitude of the flat spectrum the operation computes
    itself, while cells 2 and 3 of the input, read as a packed bin, are
    both [0]. *)
Lemma magnitude_FFT_apply_not_of_its_input :
  ~ (forall k : Z, 0 <= k < 16 ->
       snd (@CMSIS_DSP_magnitude_FFT_f32_apply exact_arith std_header dft_kernel
              rfft_32 100 3000 m_impulse) (3000 + k)
       = sqrt (m_impulse (100 + 2 * k)%Z * m_impulse (100 + 2 * k)%Z
               + m_impulse (100 + (2 * k + 1))%Z * m_impulse (100 + (2 * k + 1))%Z)%R).
Proof.
  intros Hclaim. specialize (Hclaim 1 ltac:(lia)).
  rewrite magnitude_of_impulse_bin_1 in Hclaim by lia.
  change (1 = sqrt (0 * 0 + 0 * 0))%R in Hclaim.
  replace (0 * 0 + 0 * 0)%R with 0%R in Hclaim by ring.
  rewrite sqrt_0 in Hclaim. lra.
Qed.

Lemma magnitude_FFT_apply_witness :
  snd (@CMSIS_DSP_magnitude_FFT_f32_apply exact_arith std_header dft_kernel
         rfft_32 100 3000 m_impulse) (3000 + 1)
  = sqrt (@bin_real exact_arith impulse_spectrum 1%Z
          * @bin_real exact_arith impulse_spectrum 1%Z
          + @bin_imag exact_arith impulse_spectrum 1%Z
            * @bin_imag exact_arith impulse_spectrum 1%Z)%R.
Proof.
  apply (@magnitude_FFT_apply_transforms_then_takes_magnitudes
           exact_arith std_header dft_kernel rfft_32 100 3000 m_impulse 1).
  - exact rfft_32_configured.
  - apply rfft_32_buffers_ok. lia.
  - cbn. lia.
Defined.

Lemma sqrt_squares_back (real imag : R) :
  close_enough
    (sqrt (@cmplx_norm2 exact_arith real imag) * sqrt (@cmplx_norm2 exact_arith real imag))
    (@cmplx_norm2 exact_arith real imag).
Proof.
  unfold close_enough, cmplx_norm2. cbn.
  rewrite sqrt_sqrt by nra.
  rewrite Rminus_diag, Rabs_R0. lra.
Qed.

Lemma magnitude_consistency_witness :
  snd (@CMSIS_DSP_magnitude_FFT_f32_apply exact_arith std_header dft_kernel
         rfft_32 100 3000 m_impulse) (3000 + 1)
  = sqrt (snd (@CMSIS_DSP_magnitudeSquare_FFT_f32_apply exact_arith std_header dft_kernel
                 rfft_32 100 4000 m_impulse) (4000 + 1)) /\
  close_enough
    (Rmult
       (snd (@CMSIS_DSP_magnitude_FFT_f32_apply exact_arith std_header dft_kernel
               rfft_32 100 3000 m_impulse) (3000 + 1))
       (snd (@CMSIS_DSP_magnitude_FFT_f32_apply exact_arith std_header dft_kernel
               rfft_32 100 3000 m_impulse) (3000 + 1)))
    (snd (@CMSIS_DSP_magnitudeSquare_FFT_f32_apply exact_arith std_header dft_kernel
            rfft_32 100 4000 m_impulse) (4000 + 1)).
Proof.
  destruct (@magnitude_consistency exact_arith std_header dft_kernel
              rfft_32 100 3000 4000 m_impulse 1) as [Hroot Hclose].
  - exact rfft_32_configured.
  - apply rfft_32_buffers_ok. lia.
  - apply rfft_32_buffers_ok. lia.
  - cbn. lia.
  - split; [exact Hroot|].
    exact (Hclose close_enough sqrt_squares_back).
Defined.

Lemma rfft_32_transform_buffers_ok (pIn pOut : Z) :
  pIn + 32 <= 1000 \/ 1032 <= pIn ->
  pOut + 32 <= 1000 \/ 1032 <= pOut ->
  @transform_buffers_ok exact_arith dft_kernel rfft_32 pIn pOut.
Proof.
  intros Hin Hout. unfold transform_buffers_ok. cbn.
  split; unfold disjoint, in_region; intros a Ha Hb; lia.
Qed.

Lemma real_FFT_apply_frame_witness :
  snd (@CMSIS_DSP_real_FFT_f32_apply exact_arith std_header dft_kernel
         rfft_32 100 3000 m_impulse) 100 = 1%R.
Proof.
  apply (@real_FFT_apply_frame exact_arith std_header dft_kernel
           rfft_32 100 3000 m_impulse 100).
  - exact rfft_32_configured.
  - apply rfft_32_transform_buffers_ok; lia.
  - unfold in_region. cbn. lia.
  - unfold in_region. cbn. lia.
Defined.

Lemma real_FFT_then_IFFT_witness :
  read_list
    (snd (@CMSIS_DSP_real_IFFT_f32_apply exact_arith std_header dft_kernel
            rfft_32 3000 4000
            (snd (@CMSIS_DSP_real_FFT_f32_apply exact_arith std_header dft_kernel
                    rfft_32 100 3000 m_impulse))))
    4000 32
  = idft_packed (dft_packed (1%R :: repeat 0%R 31)).
Proof.
  apply (proj1 (@real_FFT_then_IFFT_is_the_kernel_round_trip
                  exact_arith std_header dft_kernel rfft_32 100 3000 4000 m_impulse
                  rfft_32_configured
                  (rfft_32_transform_buffers_ok 100 3000 ltac:(lia) ltac:(lia))
                  (rfft_32_transform_buffers_ok 3000 4000 ltac:(lia) ltac:(lia)))).
Defined.

Lemma real_FFT_blockInit_not_atomic_witness :
  fst (@CMSIS_DSP_real_FFT_f32_blockInit exact_arith dft_kernel rfft_32 5000 6000 100)
    = ret_status ARM_MATH_ARGUMENT_ERROR /\
  @rfft_length exact_arith dft_kernel
    (snd (@CMSIS_DSP_real_FFT_f32_blockInit exact_arith dft_kernel rfft_32 5000 6000 100))
    = 100 /\
  @rfft_tmpBuffer_1 exact_arith dft_kernel
    (snd (@CMSIS_DSP_real_FFT_f32_blockInit exact_arith dft_kernel rfft_32 5000 6000 100))
    = 5000 /\
  @rfft_tmpBuffer_2 exact_arith dft_kernel
    (snd (@CMSIS_DSP_real_FFT_f32_blockInit exact_arith dft_kernel rfft_32 5000 6000 100))
    = 6000.
Proof.
  apply (@real_FFT_blockInit_not_atomic exact_arith dft_kernel rfft_32 5000 6000 100).
  discriminate.
Defined.

(** ** The round trip of the transforms *)





















(** ** FIR filter *)

Section FIRFacts.
Context {A : CArith}.
Local Open Scope cfloat_scope.

Lemma FIR_blockInit_block
    (b : fir_f32_TypeDef) (coeffs state tmp : ptr) (T B : Z) (m : mem) :
  fst (CMSIS_DSP_FIR_f32_blockInit b coeffs state tmp T B m)
  = (ret_void,
     {| fir_arm_struct :=
          {| arm_fir_numTaps := T; arm_fir_pState := state; arm_fir_pCoeffs := coeffs |};
        fir_numTap := T;
        fir_blockSize := B;
        fir_pCoeff := coeffs;
        fir_pState := state;
        fir_tmpBuffer := tmp |}).
Proof. reflexivity. Qed.

Lemma FIR_blockInit_memory
    (b : fir_f32_TypeDef) (coeffs state tmp : ptr) (T B : Z) (m : mem) :
  snd (CMSIS_DSP_FIR_f32_blockInit b coeffs state tmp T B m)
  = write_list m state (repeat (f32_of_int 0) (Z.to_nat (T + B - 1))).
Proof. reflexivity. Qed.

(** C4, as amended: FIR initialisation is a [void] function that checks
    none of its arguments.  For every tap count, block size and buffer
    pointers it hands back no status and binds the buffers and the sizes in
    the block and in the kernel instance; when the state pointer is not null
    and the tap count and the block size are not both zero, it zero-fills the
    tapCount + blockSize - 1 cells of the state buffer and writes no other
    cell. *)
Theorem FIR_blockInit_checks_nothing
    (b : fir_f32_TypeDef) (coeffs state tmp : ptr) (T B : Z) (m : mem) :
  fst (fst (CMSIS_DSP_FIR_f32_blockInit b coeffs state tmp T B m)) = ret_void /\
  snd (fst (CMSIS_DSP_FIR_f32_blockInit b coeffs state tmp T B m))
    = {| fir_arm_struct :=
           {| arm_fir_numTaps := T; arm_fir_pState := state; arm_fir_pCoeffs := coeffs |};
         fir_numTap := T;
         fir_blockSize := B;
         fir_pCoeff := coeffs;
         fir_pState := state;
         fir_tmpBuffer := tmp |} /\
  (forall i : Z, state <> NULL -> 1 <= T + B -> 0 <= i < T + B - 1 ->
     snd (CMSIS_DSP_FIR_f32_blockInit b coeffs state tmp T B m) (state + i)
     = f32_of_int 0) /\
  (forall a : ptr, state <> NULL -> 1 <= T + B -> ~ in_region state (T + B - 1) a ->
     snd (CMSIS_DSP_FIR_f32_blockInit b coeffs state tmp T B m) a = m a).
Proof.
  rewrite FIR_blockInit_block, FIR_blockInit_memory. repeat split.
  - intros i _ _ Hi.
    replace (state + i) with (state + Z.of_nat (Z.to_nat i)) by lia.
    rewrite (write_list_in _ _ _ _ (f32_of_int 0)) by (rewrite repeat_length; lia).
    apply nth_repeat.
  - intros a _ _ Ha. apply write_list_out. rewrite repeat_length.
    intros Hin. apply Ha. regions.
Qed.

Lemma fir_block_out (pCoeffs : ptr) (numTaps : Z) (c : nat) :
  forall (m : mem) (pState pStateCurnt pSrc pDst a : ptr),
  ~ in_region pStateCurnt (Z.of_nat c) a ->
  ~ in_region pDst (Z.of_nat c) a ->
  fir_block m pState pCoeffs numTaps pStateCurnt pSrc pDst c a = m a.
Proof.
  induction c as [|c IH]; intros m ps sc src d a Hsc Hd; [reflexivity|].
  simpl fir_block. rewrite IH by regions.
  rewrite !store_neq; [reflexivity | regions | regions].
Qed.

Lemma fir_shift_out (t : nat) : forall (m : mem) (pStateCurnt pState a : ptr),
  ~ in_region pStateCurnt (Z.of_nat t) a ->
  fir_shift m pStateCurnt pState t a = m a.
Proof.
  induction t as [|t IH]; intros m pc ps a Ha; [reflexivity|].
  simpl fir_shift. rewrite IH by regions. apply store_neq. regions.
Qed.

(** The kernel writes its state buffer and its output buffer, and nothing
    else. *)
Lemma arm_fir_f32_out (S : arm_fir_instance_f32) (m : mem) (pSrc pDst : ptr) (B : Z) (a : ptr) :
  1 <= arm_fir_numTaps S -> 0 <= B ->
  ~ in_region (arm_fir_pState S) (arm_fir_numTaps S + B - 1) a ->
  ~ in_region pDst B a ->
  arm_fir_f32 S m pSrc pDst B a = m a.
Proof.
  intros HT HB Hst Hd. unfold arm_fir_f32.
  rewrite fir_shift_out by regions.
  apply fir_block_out; regions.
Qed.

(** X4: the apply operation writes the state buffer, the scratch buffer and
    the output buffer, and nothing else; and when the scratch buffer overlaps
    neither of the other two, it holds the input samples afterwards. *)
Theorem FIR_apply_frame_and_copy
    (b0 : fir_f32_TypeDef) (coeffs state tmp : ptr) (T B : Z) (m0 m : mem)
    (pInput pOutput : ptr) :
  let b := snd (fst (CMSIS_DSP_FIR_f32_blockInit b0 coeffs state tmp T B m0)) in
  1 <= T -> 0 <= B ->
  disjoint pInput B tmp B ->
  (forall a : ptr,
     ~ in_region state (T + B - 1) a -> ~ in_region tmp B a -> ~ in_region pOutput B a ->
     snd (CMSIS_DSP_FIR_f32_apply b pInput pOutput m) a = m a) /\
  (disjoint tmp B state (T + B - 1) -> disjoint tmp B pOutput B ->
   forall n : Z, 0 <= n < B ->
     snd (CMSIS_DSP_FIR_f32_apply b pInput pOutput m) (tmp + n) = m (pInput + n)).
Proof.
  intros b HT HB _. subst b. rewrite FIR_blockInit_block.
  unfold CMSIS_DSP_FIR_f32_apply.
  cbn [snd fir_arm_struct fir_blockSize fir_tmpBuffer].
  unfold memcpy, sizeof_float32_t. rewrite Z.mul_comm, Z.div_mul by discriminate.
  split.
  - intros a Hst Htmp Hout.
    rewrite arm_fir_f32_out by (cbn; assumption).
    apply write_list_out. rewrite read_list_length. intros Hin. apply Htmp. regions.
  - intros Hts Hto n Hn.
    rewrite arm_fir_f32_out; cbn [arm_fir_numTaps arm_fir_pState]; try assumption.
    + replace (tmp + n) with (tmp + Z.of_nat (Z.to_nat n)) by lia.
      rewrite (write_list_in _ _ _ _ (f32_of_int 0)) by (rewrite read_list_length; lia).
      rewrite read_list_nth by lia. f_equal. lia.
    + intros Hin. apply (Hts (tmp + n)); regions.
    + intros Hin. apply (Hto (tmp + n)); regions.
Qed.

End FIRFacts.

(** C4 fails as stated: with a tap count of zero, FIR initialisation hands
    no status back to its caller, so no error either. *)
Lemma FIR_blockInit_zero_taps_no_error :
  ~ exists status : Z,
      fst (fst (@CMSIS_DSP_FIR_f32_blockInit exact_arith
                  fir_blank 100 200 300 0 4 m_fir))
      = ret_status status.
Proof. intros [status Hs]. discriminate Hs. Qed.

(** Two taps and a block of two samples: the three state cells at [200] are
    zeroed, the cell after them keeps its [9]. *)
Example FIR_blockInit_zero_fills :
  let m' := snd (@CMSIS_DSP_FIR_f32_blockInit exact_arith
                   fir_blank 100 200 300 2 2 m_sample) in
  m_sample 200 = 3%R /\ m_sample 202 = 7%R /\
  m' 200 = 0%R /\ m' 201 = 0%R /\ m' 202 = 0%R /\ m' 203 = 9%R.
Proof. cbv zeta. repeat split. Qed.

(** The filter on three samples: two taps [b[0] = 3], [b[1] = 2] (stored
    time-reversed), a zeroed state, the input [1; 4; 6].  The output is
    [3*1; 3*4 + 2*1; 3*6 + 2*4], and the last input sample is kept as the
    history of the next call. *)
Example FIR_apply_three_samples :
  let r := @CMSIS_DSP_FIR_f32_blockInit exact_arith fir_blank 100 200 300 2 3 m_fir in
  let m' := snd (@CMSIS_DSP_FIR_f32_apply exact_arith (snd (fst r)) 400 500 (snd r)) in
  m' 500 = 3%R /\ m' 501 = 14%R /\ m' 502 = 26%R /\ m' 200 = 6%R.
Proof.
  cbv zeta. repeat split; cbv -[Rplus Rmult IZR]; ring.
Qed.

Lemma FIR_apply_frame_and_copy_witness :
  snd (@CMSIS_DSP_FIR_f32_apply exact_arith
         (snd (fst (@CMSIS_DSP_FIR_f32_blockInit exact_arith
                      fir_blank 100 200 300 2 3 m_fir)))
         400 500 m_fir) 401 = 4%R /\
  snd (@CMSIS_DSP_FIR_f32_apply exact_arith
         (snd (fst (@CMSIS_DSP_FIR_f32_blockInit exact_arith
                      fir_blank 100 200 300 2 3 m_fir)))
         400 500 m_fir) (300 + 1) = 4%R.
Proof.
  destruct (@FIR_apply_frame_and_copy exact_arith
              fir_blank 100 200 300 2 3 m_fir m_fir 400 500)
    as [Hframe Hcopy]; [lia | lia | regions |].
  split.
  - apply (Hframe 401); unfold in_region; lia.
  - apply (Hcopy ltac:(regions) ltac:(regions) 1). lia.
Defined.

(** The same three samples in binary32: the sums are exact there. *)
Example FIR_apply_three_samples_binary32 (cos64 : spec_float -> spec_float) :
  let A := ieee_arith cos64 in
  let r := @CMSIS_DSP_FIR_f32_blockInit A fir_blank 100 200 300 2 3 (m_binary32 cos64) in
  let m' := snd (@CMSIS_DSP_FIR_f32_apply A (snd (fst r)) 400 500 (snd r)) in
  map m' [500; 501; 502; 200] = map (@f32_of_int A) [3; 14; 26; 6].
Proof. vm_compute. reflexivity. Qed.

(** In binary32 the tolerance of the magnitude consistency is not idle: for
    the bin (1, 1) the squared magnitude is exactly 2, the magnitude is the
    rounded square root of 2, and its square is one unit in the last place
    below 2. *)
Example magnitude_squared_back_binary32 (cos64 : spec_float -> spec_float) :
  let A := ieee_arith cos64 in
  let mag := @arm_cmplx_mag_f32 A (m_binary32 cos64) 600 700 1 700 in
  let magsq := @arm_cmplx_mag_squared_f32 A (m_binary32 cos64) 600 700 1 700 in
  magsq = S754_finite false 8388608 (-22) /\
  mag = S754_finite false 11863283 (-23) /\
  @f32_mul A mag mag = S754_finite false 16777215 (-23).
Proof. vm_compute. repeat split. Qed.

(** * Further properties *)

(** ** Real FFT and magnitude: outputs, scratch buffers and sequences *)

Section RealFFTMore.
Context {A : CArith} {H : Header} {K : RealFFTKernel}.
Local Open Scope cfloat_scope.

Lemma read_list_agree (m1 m2 : mem) (n : nat) : forall p : ptr,
  (forall a, in_region p (Z.of_nat n) a -> m1 a = m2 a) ->
  read_list m1 p n = read_list m2 p n.
Proof.
  induction n as [|n IH]; intros p Hag; [reflexivity|].
  simpl. rewrite (Hag p) by regions. f_equal.
  apply IH. intros a Ha. apply Hag. regions.
Qed.

Lemma magnitude_buffers_ok_parts (b : rfft_f32_TypeDef) (rDataIn out : ptr) :
  magnitude_buffers_ok b rDataIn out ->
  disjoint rDataIn (rfft_length b) (rfft_tmpBuffer_1 b) (rfft_length b) /\
  disjoint (rfft_tmpBuffer_1 b) (rfft_length b) (rfft_tmpBuffer_2 b) (rfft_length b) /\
  disjoint out (rfft_length b / 2) (rfft_tmpBuffer_2 b) (rfft_length b).
Proof. intros Hok. exact Hok. Qed.

(** One transform, in either direction, writes the first scratch buffer and
    its output buffer only. *)
Lemma transform_apply_frame (flag : Z) (b : rfft_f32_TypeDef) (pIn pOut : ptr) (m : mem) (a : ptr) :
  rfft_configured b ->
  ~ in_region (rfft_tmpBuffer_1 b) (rfft_length b) a ->
  ~ in_region pOut (rfft_length b) a ->
  arm_rfft_fast_f32 (rfft_arm_struct b)
    (memcpy m (rfft_tmpBuffer_1 b) pIn (sizeof_float32_t * rfft_length b))
    (rfft_tmpBuffer_1 b) pOut flag a
  = m a.
Proof.
  intros [Hlen HN] Htmp Hout. unfold arm_rfft_fast_f32.
  rewrite Hlen, memcpy_floats.
  set (n := Z.to_nat (rfft_length b)).
  set (x := read_list (write_list m (rfft_tmpBuffer_1 b) (read_list m pIn n))
              (rfft_tmpBuffer_1 b) n).
  destruct (rfft_fast_length (rfft_arm_struct b) flag x) as [H1 H2].
  assert (Hx : length x = n) by apply read_list_length.
  rewrite write_list_out by (rewrite H2, Hx; unfold n; intros Hin; apply Hout; regions).
  rewrite write_list_out by (rewrite H1, Hx; unfold n; intros Hin; apply Htmp; regions).
  apply write_list_out. rewrite read_list_length. unfold n.
  intros Hin. apply Htmp. regions.
Qed.

(** After the copy, the forward transform and the scan of the bins: the
    second scratch buffer still holds the packed spectrum, and no cell
    outside the two scratch buffers and the N/2 output cells has changed. *)
Lemma spectrum_pipeline_effects (g : float32_t -> float32_t -> float32_t)
    (b : rfft_f32_TypeDef) (rDataIn out : ptr) (m : mem) :
  rfft_configured b ->
  magnitude_buffers_ok b rDataIn out ->
  let m' :=
    cmplx_loop g
      (arm_rfft_fast_f32 (rfft_arm_struct b)
         (memcpy m (rfft_tmpBuffer_1 b) rDataIn (sizeof_float32_t * rfft_length b))
         (rfft_tmpBuffer_1 b) (rfft_tmpBuffer_2 b) REAL_FFT_SELECT_VAL)
      (rfft_tmpBuffer_2 b) out (Z.to_nat (rfft_length b / 2)) in
  read_list m' (rfft_tmpBuffer_2 b) (Z.to_nat (rfft_length b)) = spectrum_of b rDataIn m /\
  forall a : ptr,
    ~ in_region (rfft_tmpBuffer_1 b) (rfft_length b) a ->
    ~ in_region (rfft_tmpBuffer_2 b) (rfft_length b) a ->
    ~ in_region out (rfft_length b / 2) a ->
    m' a = m a.
Proof.
  intros Hb (_ & _ & Hout) m'. subst m'.
  pose proof Hb as [Hlen HN].
  assert (Hhalf : 0 <= rfft_length b / 2) by (apply Z.div_pos; lia).
  assert (Hcnt : Z.of_nat (Z.to_nat (rfft_length b / 2)) = rfft_length b / 2) by lia.
  split.
  - unfold spectrum_of. rewrite <- (transform_apply_output _ b rDataIn (rfft_tmpBuffer_2 b) m Hb).
    apply read_list_agree. intros a Ha.
    apply cmplx_loop_out. rewrite Hcnt. intros Hin. apply (Hout a); regions.
  - intros a H1 H2 H3.
    rewrite cmplx_loop_out by (rewrite Hcnt; assumption).
    now apply transform_apply_frame.
Qed.

(** X7: the magnitude-squared operation, like the magnitude operation, takes
    real samples and transforms them itself: output[k] is real[k]^2 +
    imag[k]^2 of the bins of the forward transform of the input, for every k
    in [0, N/2), also when the output buffer is the input buffer. *)
Theorem magnitudeSquare_FFT_apply_transforms_then_squares
    (b : rfft_f32_TypeDef) (rDataIn magSqFFTOut : ptr) (m : mem) (k : Z) :
  rfft_configured b ->
  magnitude_buffers_ok b rDataIn magSqFFTOut ->
  0 <= k < rfft_length b / 2 ->
  snd (CMSIS_DSP_magnitudeSquare_FFT_f32_apply b rDataIn magSqFFTOut m) (magSqFFTOut + k)
  = bin_real (spectrum_of b rDataIn m) k *f bin_real (spectrum_of b rDataIn m) k
    +f bin_imag (spectrum_of b rDataIn m) k *f bin_imag (spectrum_of b rDataIn m) k.
Proof. exact (magnitudeSquare_FFT_apply_value b rDataIn magSqFFTOut m k). Qed.

(** X8: neither magnitude operation is free of side effects, and neither
    writes past N/2 output cells.  Each leaves the packed spectrum of the
    input in the second scratch buffer, and changes no cell outside the two
    scratch buffers and the first N/2 cells of its output. *)
Theorem magnitude_apply_side_effects
    (b : rfft_f32_TypeDef) (rDataIn out : ptr) (m : mem) :
  rfft_configured b ->
  magnitude_buffers_ok b rDataIn out ->
  (read_list (snd (CMSIS_DSP_magnitude_FFT_f32_apply b rDataIn out m))
     (rfft_tmpBuffer_2 b) (Z.to_nat (rfft_length b))
   = spectrum_of b rDataIn m /\
   read_list (snd (CMSIS_DSP_magnitudeSquare_FFT_f32_apply b rDataIn out m))
     (rfft_tmpBuffer_2 b) (Z.to_nat (rfft_length b))
   = spectrum_of b rDataIn m) /\
  forall a : ptr,
    ~ in_region (rfft_tmpBuffer_1 b) (rfft_length b) a ->
    ~ in_region (rfft_tmpBuffer_2 b) (rfft_length b) a ->
    ~ in_region out (rfft_length b / 2) a ->
    snd (CMSIS_DSP_magnitude_FFT_f32_apply b rDataIn out m) a = m a /\
    snd (CMSIS_DSP_magnitudeSquare_FFT_f32_apply b rDataIn out m) a = m a.
Proof.
  intros Hb Hok.
  destruct (spectrum_pipeline_effects
              (fun real imag => arm_sqrt_f32 (cmplx_norm2 real imag))
              b rDataIn out m Hb Hok) as [Hs1 Hf1].
  destruct (spectrum_pipeline_effects cmplx_norm2 b rDataIn out m Hb Hok) as [Hs2 Hf2].
  split; [split; [exact Hs1 | exact Hs2]|].
  intros a H1 H2 H3. split; [now apply Hf1 | now apply Hf2].
Qed.

(** X9: the forward transform leaves the packed spectrum of the input in
    its output buffer, also when that buffer is the input buffer itself (the
    samples are copied to the scratch buffer first); and the magnitude
    operation gives, bin by bin, the magnitude of what the forward transform
    gives. *)
Theorem magnitude_of_real_FFT_apply
    (b : rfft_f32_TypeDef) (rDataIn fftOut magFFTOut : ptr) (m : mem) :
  rfft_configured b ->
  transform_buffers_ok b rDataIn fftOut ->
  magnitude_buffers_ok b rDataIn magFFTOut ->
  read_list (snd (CMSIS_DSP_real_FFT_f32_apply b rDataIn fftOut m))
    fftOut (Z.to_nat (rfft_length b))
  = spectrum_of b rDataIn m /\
  read_list (snd (CMSIS_DSP_real_FFT_f32_apply b rDataIn rDataIn m))
    rDataIn (Z.to_nat (rfft_length b))
  = spectrum_of b rDataIn m /\
  forall k : Z, 0 <= k < rfft_length b / 2 ->
    snd (CMSIS_DSP_magnitude_FFT_f32_apply b rDataIn magFFTOut m) (magFFTOut + k)
    = arm_sqrt_f32
        (cmplx_norm2
           (snd (CMSIS_DSP_real_FFT_f32_apply b rDataIn fftOut m) (fftOut + 2 * k))
           (snd (CMSIS_DSP_real_FFT_f32_apply b rDataIn fftOut m) (fftOut + (2 * k + 1)))).
Proof.
  intros Hb _ Hmag.
  assert (Hout : forall pOut,
             read_list (snd (CMSIS_DSP_real_FFT_f32_apply b rDataIn pOut m))
               pOut (Z.to_nat (rfft_length b))
             = spectrum_of b rDataIn m).
  { intros pOut. unfold CMSIS_DSP_real_FFT_f32_apply. cbn [snd].
    now rewrite transform_apply_output. }
  split; [apply Hout|]. split; [apply Hout|].
  intros k Hk. rewrite magnitude_FFT_apply_value by assumption.
  destruct Hb as [Hlen HN].
  assert (Hhalf : 2 * (rfft_length b / 2) <= rfft_length b) by (apply Z.mul_div_le; lia).
  unfold bin_real, bin_imag. rewrite <- (Hout fftOut).
  rewrite !read_list_nth by lia.
  now replace (Z.of_nat (Z.to_nat (2 * k))) with (2 * k) by lia;
      replace (Z.of_nat (Z.to_nat (2 * k + 1))) with (2 * k + 1) by lia.
Qed.

(** X10: the magnitude operation and then the magnitude-squared operation,
    one after the other on the same block and the same input buffer.  The
    first call keeps the input, the second keeps the first output, and in
    the memory they leave every magnitude is the square root of the squared
    magnitude of its bin. *)
Theorem magnitude_then_magnitudeSquare
    (b : rfft_f32_TypeDef) (rDataIn magFFTOut magSqFFTOut : ptr) (m : mem) (k : Z) :
  rfft_configured b ->
  magnitude_sequence_ok b rDataIn magFFTOut magSqFFTOut ->
  0 <= k < rfft_length b / 2 ->
  let m1 := snd (CMSIS_DSP_magnitude_FFT_f32_apply b rDataIn magFFTOut m) in
  let m2 := snd (CMSIS_DSP_magnitudeSquare_FFT_f32_apply b rDataIn magSqFFTOut m1) in
  read_list m1 rDataIn (Z.to_nat (rfft_length b))
    = read_list m rDataIn (Z.to_nat (rfft_length b)) /\
  m2 (magFFTOut + k) = m1 (magFFTOut + k) /\
  m2 (magFFTOut + k) = arm_sqrt_f32 (m2 (magSqFFTOut + k)).
Proof.
  intros Hb (Hok1 & Hok2 & Hin2 & Hin1 & Ho1 & Ho12) Hk m1 m2.
  pose proof Hb as [Hlen HN].
  assert (Hhalf : 2 * (rfft_length b / 2) <= rfft_length b) by (apply Z.mul_div_le; lia).
  destruct (magnitude_buffers_ok_parts b rDataIn magFFTOut Hok1) as (Hi1 & _ & Hd1).
  assert (Hkeep : read_list m1 rDataIn (Z.to_nat (rfft_length b))
                  = read_list m rDataIn (Z.to_nat (rfft_length b))).
  { apply read_list_agree. intros a Ha. subst m1.
    unfold CMSIS_DSP_magnitude_FFT_f32_apply, arm_cmplx_mag_f32. cbn [snd].
    apply (proj2 (spectrum_pipeline_effects _ b rDataIn magFFTOut m Hb Hok1)).
    - intros Hx. apply (Hi1 a); regions.
    - intros Hx. apply (Hin2 a); regions.
    - intros Hx. apply (Hin1 a); regions. }
  assert (Hfirst : m2 (magFFTOut + k) = m1 (magFFTOut + k)).
  { subst m2.
    unfold CMSIS_DSP_magnitudeSquare_FFT_f32_apply, arm_cmplx_mag_squared_f32. cbn [snd].
    apply (proj2 (spectrum_pipeline_effects _ b rDataIn magSqFFTOut m1 Hb Hok2)).
    - intros Hx. apply (Ho1 (magFFTOut + k)); regions.
    - intros Hx. apply (Hd1 (magFFTOut + k)); regions.
    - intros Hx. apply (Ho12 (magFFTOut + k)); regions. }
  split; [exact Hkeep|]. split; [exact Hfirst|].
  rewrite Hfirst. subst m2 m1.
  rewrite magnitudeSquare_FFT_apply_value, magnitude_FFT_apply_value by assumption.
  unfold spectrum_of. now rewrite Hkeep.
Qed.

(** X11: the inverse transform leaves in its output buffer what the kernel's
    inverse computes from the cells of its input, also when the two buffers
    are the same, and changes no cell outside the first scratch buffer and
    that output. *)
Theorem real_IFFT_apply_output_and_frame
    (b : rfft_f32_TypeDef) (fftIn ifftOut : ptr) (m : mem) :
  rfft_configured b ->
  transform_buffers_ok b fftIn ifftOut ->
  read_list (snd (CMSIS_DSP_real_IFFT_f32_apply b fftIn ifftOut m))
    ifftOut (Z.to_nat (rfft_length b))
  = snd (rfft_fast (rfft_arm_struct b) REAL_IFFT_SELECT_VAL
           (read_list m fftIn (Z.to_nat (rfft_length b)))) /\
  read_list (snd (CMSIS_DSP_real_IFFT_f32_apply b fftIn fftIn m))
    fftIn (Z.to_nat (rfft_length b))
  = snd (rfft_fast (rfft_arm_struct b) REAL_IFFT_SELECT_VAL
           (read_list m fftIn (Z.to_nat (rfft_length b)))) /\
  forall a : ptr,
    ~ in_region (rfft_tmpBuffer_1 b) (rfft_length b) a ->
    ~ in_region ifftOut (rfft_length b) a ->
    snd (CMSIS_DSP_real_IFFT_f32_apply b fftIn ifftOut m) a = m a.
Proof.
  intros Hb _. unfold CMSIS_DSP_real_IFFT_f32_apply. cbn [snd].
  rewrite !transform_apply_output by assumption.
  repeat split. intros a Htmp Hout. now apply transform_apply_frame.
Qed.

(** X12: the status of the kernel initialiser reaches the caller unchanged
    through the [int8_t] return type whenever it fits that type, as every
    [arm_status] does; so initialisation reports success exactly when the
    kernel initialiser does, and the block holds the instance it set up. *)
Theorem real_FFT_blockInit_status
    (b : rfft_f32_TypeDef) (set_tmp1 set_tmp2 : ptr) (setLength : Z) :
  -128 <= fst (arm_rfft_fast_init_f32 (rfft_arm_struct b) setLength) <= 127 ->
  fst (CMSIS_DSP_real_FFT_f32_blockInit b set_tmp1 set_tmp2 setLength)
    = ret_status (fst (arm_rfft_fast_init_f32 (rfft_arm_struct b) setLength)) /\
  (fst (CMSIS_DSP_real_FFT_f32_blockInit b set_tmp1 set_tmp2 setLength)
     = ret_status ARM_MATH_SUCCESS
   <-> fst (arm_rfft_fast_init_f32 (rfft_arm_struct b) setLength) = ARM_MATH_SUCCESS) /\
  rfft_arm_struct (snd (CMSIS_DSP_real_FFT_f32_blockInit b set_tmp1 set_tmp2 setLength))
    = snd (arm_rfft_fast_init_f32 (rfft_arm_struct b) setLength).
Proof.
  intros Hst. unfold CMSIS_DSP_real_FFT_f32_blockInit. cbn [fst snd rfft_arm_struct].
  set (st := fst (arm_rfft_fast_init_f32 (rfft_arm_struct b) setLength)) in *.
  assert (Hcast : to_int8 st = st).
  { unfold to_int8. rewrite Z.mod_small by lia. lia. }
  rewrite Hcast. repeat split.
  - intros E. now injection E.
  - intros E. now rewrite E.
Qed.

End RealFFTMore.

(** ** Window functions: what initialisation writes, and apply after it *)

Section WindowMore.
Context {A : CArith} {H : Header}.
Local Open Scope cfloat_scope.

Lemma windowFunction_blockInit_out
    (w : window_TypeDef) (buf : ptr) (ty L : Z) (m : mem) (a : ptr) :
  ~ in_region buf L a ->
  snd (CMSIS_DSP_windowFunction_blockInit w buf ty L m) a = m a.
Proof.
  intros Ha. unfold CMSIS_DSP_windowFunction_blockInit. cbn [w_type w_length w_value].
  destruct (ty =? WINDOW_TYPE_RECTANGULAR);
    [cbn [snd]; apply for_loop_store_out; regions|].
  destruct (ty =? WINDOW_TYPE_HANNING);
    [cbn [snd]; apply for_loop_store_out; regions|].
  destruct (ty =? WINDOW_TYPE_HAMMING);
    [cbn [snd]; apply for_loop_store_out; regions|].
  reflexivity.
Qed.

(** X13: whatever the kind and the length, initialisation writes no cell
    outside the [length] cells of the coefficient buffer. *)
Theorem windowFunction_blockInit_writes_only_the_buffer
    (w : window_TypeDef) (buf : ptr) (ty L : Z) (m : mem) (a : ptr) :
  ~ in_region buf L a ->
  snd (CMSIS_DSP_windowFunction_blockInit w buf ty L m) a = m a.
Proof. exact (windowFunction_blockInit_out w buf ty L m a). Qed.

(** X14: for the three window kinds the coefficients depend on the kind and
    the length alone, not on what the buffer or the block held before: so
    initialising again overwrites every coefficient, and initialising twice
    is initialising once. *)
Theorem windowFunction_blockInit_overwrites
    (w1 w2 : window_TypeDef) (buf : ptr) (ty L : Z) (m1 m2 : mem) (n : Z) :
  ty = WINDOW_TYPE_RECTANGULAR \/ ty = WINDOW_TYPE_HANNING \/ ty = WINDOW_TYPE_HAMMING ->
  0 <= n < L ->
  snd (CMSIS_DSP_windowFunction_blockInit w1 buf ty L m1) (buf + n)
    = snd (CMSIS_DSP_windowFunction_blockInit w2 buf ty L m2) (buf + n) /\
  snd (CMSIS_DSP_windowFunction_blockInit
         (snd (fst (CMSIS_DSP_windowFunction_blockInit w1 buf ty L m1))) buf ty L
         (snd (CMSIS_DSP_windowFunction_blockInit w1 buf ty L m1))) (buf + n)
    = snd (CMSIS_DSP_windowFunction_blockInit w1 buf ty L m1) (buf + n).
Proof.
  intros Hty Hn.
  assert (Hany : forall w w' m m',
             snd (CMSIS_DSP_windowFunction_blockInit w buf ty L m) (buf + n)
             = snd (CMSIS_DSP_windowFunction_blockInit w' buf ty L m') (buf + n)).
  { intros w w' m m'.
    unfold CMSIS_DSP_windowFunction_blockInit. cbn [w_type w_length w_value].
    destruct (ty =? WINDOW_TYPE_RECTANGULAR) eqn:Er;
      [cbn [snd]; now rewrite !for_loop_store_in by lia|].
    destruct (ty =? WINDOW_TYPE_HANNING) eqn:En;
      [cbn [snd]; now rewrite !for_loop_store_in by lia|].
    destruct (ty =? WINDOW_TYPE_HAMMING) eqn:Em;
      [cbn [snd]; now rewrite !for_loop_store_in by lia|].
    apply Z.eqb_neq in Er, En, Em. destruct Hty as [E|[E|E]]; contradiction. }
  split; apply Hany.
Qed.

(** X15: initialisation, of any kind, and then apply.  Each output sample is
    the input sample times the coefficient initialisation left at its index,
    in place or into another buffer; apply writes the [length] output cells
    and nothing else.  So the coefficients stay for the next call when the
    output buffer shares no cell with the coefficient buffer; an output
    written over the coefficient buffer itself replaces them by the
    products. *)
Theorem window_blockInit_then_apply
    (w : window_TypeDef) (buf : ptr) (ty L : Z) (m : mem) (pInput pOutput : ptr) :
  disjoint pInput L buf L ->
  writes_behind pOutput pInput L ->
  writes_behind pOutput buf L ->
  let blk := snd (fst (CMSIS_DSP_windowFunction_blockInit w buf ty L m)) in
  let m1 := snd (CMSIS_DSP_windowFunction_blockInit w buf ty L m) in
  (forall n : Z, 0 <= n < L ->
     snd (CMSIS_DSP_windowFunciton_apply blk pInput pOutput m1) (pOutput + n)
     = m (pInput + n) *f m1 (buf + n)) /\
  (forall a : ptr, ~ in_region pOutput L a ->
     snd (CMSIS_DSP_windowFunciton_apply blk pInput pOutput m1) a = m1 a) /\
  (disjoint pOutput L buf L ->
   forall n : Z, 0 <= n < L ->
     snd (CMSIS_DSP_windowFunciton_apply blk pInput pOutput m1) (buf + n)
     = m1 (buf + n)) /\
  (forall n : Z, 0 <= n < L ->
     snd (CMSIS_DSP_windowFunciton_apply blk pInput buf m1) (buf + n)
     = m (pInput + n) *f m1 (buf + n)).
Proof.
  intros Hdis HA HB blk m1. subst blk.
  rewrite windowFunction_blockInit_block.
  unfold CMSIS_DSP_windowFunciton_apply. cbn [snd w_value w_length].
  assert (HL : Z.of_nat (Z.to_nat L) = L \/ L < 0) by lia.
  assert (Hin : forall n, 0 <= n < L -> m1 (pInput + n) = m (pInput + n)).
  { intros n Hn. subst m1. apply windowFunction_blockInit_out.
    intros Hr. apply (Hdis (pInput + n)); regions. }
  repeat split.
  - intros n Hn. destruct HL as [HL|HL]; [|lia].
    rewrite arm_mult_f32_in; rewrite ?HL; try assumption.
    now rewrite Hin.
  - intros a Ha. apply arm_mult_f32_out. regions.
  - intros Hob n Hn. apply arm_mult_f32_out.
    intros Hr. apply (Hob (buf + n)); regions.
  - intros n Hn. destruct HL as [HL|HL]; [|lia].
    rewrite arm_mult_f32_in; rewrite ?HL; try assumption.
    + now rewrite Hin.
    + intros i j Hi Hj E. apply (Hdis (pInput + j)); regions.
    + regions.
Qed.

End WindowMore.

Lemma windowFunction_blockInit_writes_only_witness :
  snd (@CMSIS_DSP_windowFunction_blockInit exact_arith std_header
         w_blank 200 (@WINDOW_TYPE_HANNING std_header) 3 m_sample) 203 = 9%R.
Proof.
  apply (@windowFunction_blockInit_writes_only_the_buffer exact_arith std_header
           w_blank 200 (@WINDOW_TYPE_HANNING std_header) 3 m_sample 203).
  unfold in_region. lia.
Defined.

Lemma windowFunction_blockInit_overwrites_witness :
  snd (@CMSIS_DSP_windowFunction_blockInit exact_arith std_header
         w_blank 200 (@WINDOW_TYPE_HAMMING std_header) 4 m_sample) (200 + 1)
    = snd (@CMSIS_DSP_windowFunction_blockInit exact_arith std_header
             w_blank 200 (@WINDOW_TYPE_HAMMING std_header) 4 m_fir) (200 + 1).
Proof.
  apply (proj1 (@windowFunction_blockInit_overwrites exact_arith std_header
                  w_blank w_blank 200 (@WINDOW_TYPE_HAMMING std_header) 4
                  m_sample m_fir 1
                  (or_intror (or_intror eq_refl)) ltac:(lia))).
Defined.

Lemma window_blockInit_then_apply_witness :
  snd (@CMSIS_DSP_windowFunciton_apply exact_arith
         (snd (fst (@CMSIS_DSP_windowFunction_blockInit exact_arith std_header
                      w_blank 100 (@WINDOW_TYPE_HANNING std_header) 4 m_sample)))
         200 200
         (snd (@CMSIS_DSP_windowFunction_blockInit exact_arith std_header
                 w_blank 100 (@WINDOW_TYPE_HANNING std_header) 4 m_sample)))
      (200 + 2)
  = Rmult 7
      (snd (@CMSIS_DSP_windowFunction_blockInit exact_arith std_header
              w_blank 100 (@WINDOW_TYPE_HANNING std_header) 4 m_sample) (100 + 2)) /\
  snd (@CMSIS_DSP_windowFunciton_apply exact_arith
         (snd (fst (@CMSIS_DSP_windowFunction_blockInit exact_arith std_header
                      w_blank 100 (@WINDOW_TYPE_HANNING std_header) 4 m_sample)))
         200 200
         (snd (@CMSIS_DSP_windowFunction_blockInit exact_arith std_header
                 w_blank 100 (@WINDOW_TYPE_HANNING std_header) 4 m_sample)))
      (100 + 2)
  = snd (@CMSIS_DSP_windowFunction_blockInit exact_arith std_header
           w_blank 100 (@WINDOW_TYPE_HANNING std_header) 4 m_sample) (100 + 2).
Proof.
  destruct (@window_blockInit_then_apply exact_arith std_header
              w_blank 100 (@WINDOW_TYPE_HANNING std_header) 4 m_sample 200 200)
    as (Hval & _ & Hkeep & _); [regions | regions | regions |].
  split; [apply (Hval 2); lia | apply (Hkeep ltac:(regions) 2); lia].
Defined.

(** ** The 32-sample block on the unit impulse, once more *)

Lemma rfft_32_sequence_ok :
  @magnitude_sequence_ok exact_arith dft_kernel rfft_32 100 3000 4000.
Proof.
  unfold magnitude_sequence_ok.
  split; [apply rfft_32_buffers_ok; lia|].
  split; [apply rfft_32_buffers_ok; lia|].
  cbn. repeat split; unfold disjoint, in_region; intros a Ha Hb; lia.
Qed.

Lemma magnitudeSquare_FFT_apply_witness :
  snd (@CMSIS_DSP_magnitudeSquare_FFT_f32_apply exact_arith std_header dft_kernel
         rfft_32 100 4000 m_impulse) (4000 + 1)
  = Rplus
      (Rmult (@bin_real exact_arith impulse_spectrum 1)
             (@bin_real exact_arith impulse_spectrum 1))
      (Rmult (@bin_imag exact_arith impulse_spectrum 1)
             (@bin_imag exact_arith impulse_spectrum 1)).
Proof.
  apply (@magnitudeSquare_FFT_apply_transforms_then_squares
           exact_arith std_header dft_kernel rfft_32 100 4000 m_impulse 1).
  - exact rfft_32_configured.
  - apply rfft_32_buffers_ok. lia.
  - cbn. lia.
Defined.

Lemma magnitude_apply_side_effects_witness :
  read_list
    (snd (@CMSIS_DSP_magnitude_FFT_f32_apply exact_arith std_header dft_kernel
            rfft_32 100 3000 m_impulse)) 2000 32
  = impulse_spectrum /\
  snd (@CMSIS_DSP_magnitude_FFT_f32_apply exact_arith std_header dft_kernel
         rfft_32 100 3000 m_impulse) (3000 + 16) = 0%R.
Proof.
  destruct (@magnitude_apply_side_effects exact_arith std_header dft_kernel
              rfft_32 100 3000 m_impulse rfft_32_configured
              (rfft_32_buffers_ok 3000 ltac:(lia))) as [[Hspec _] Hframe].
  split; [exact Hspec|].
  apply (Hframe (3000 + 16)); unfold in_region; cbn; lia.
Defined.

Lemma magnitude_of_real_FFT_apply_witness :
  read_list
    (snd (@CMSIS_DSP_real_FFT_f32_apply exact_arith std_header dft_kernel
            rfft_32 100 100 m_impulse)) 100 32
  = impulse_spectrum.
Proof.
  apply (proj1 (proj2 (@magnitude_of_real_FFT_apply exact_arith std_header dft_kernel
                         rfft_32 100 5000 3000 m_impulse rfft_32_configured
                         (rfft_32_transform_buffers_ok 100 5000
                            ltac:(lia) ltac:(lia))
                         (rfft_32_buffers_ok 3000 ltac:(lia))))).
Defined.

Lemma magnitude_then_magnitudeSquare_witness :
  snd (@CMSIS_DSP_magnitudeSquare_FFT_f32_apply exact_arith std_header dft_kernel
         rfft_32 100 4000
         (snd (@CMSIS_DSP_magnitude_FFT_f32_apply exact_arith std_header dft_kernel
                 rfft_32 100 3000 m_impulse))) (3000 + 1)
  = sqrt
      (snd (@CMSIS_DSP_magnitudeSquare_FFT_f32_apply exact_arith std_header dft_kernel
              rfft_32 100 4000
              (snd (@CMSIS_DSP_magnitude_FFT_f32_apply exact_arith std_header dft_kernel
                      rfft_32 100 3000 m_impulse))) (4000 + 1)).
Proof.
  apply (proj2 (proj2 (@magnitude_then_magnitudeSquare exact_arith std_header dft_kernel
                         rfft_32 100 3000 4000 m_impulse 1
                         rfft_32_configured rfft_32_sequence_ok
                         ltac:(cbn; lia)))).
Defined.

Lemma real_IFFT_apply_witness :
  read_list
    (snd (@CMSIS_DSP_real_IFFT_f32_apply exact_arith std_header dft_kernel
            rfft_32 100 100 m_impulse)) 100 32
  = idft_packed (1%R :: repeat 0%R 31) /\
  snd (@CMSIS_DSP_real_IFFT_f32_apply exact_arith std_header dft_kernel
         rfft_32 100 3000 m_impulse) 100 = 1%R.
Proof.
  destruct (@real_IFFT_apply_output_and_frame exact_arith std_header dft_kernel
              rfft_32 100 3000 m_impulse rfft_32_configured
              (rfft_32_transform_buffers_ok 100 3000 ltac:(lia) ltac:(lia)))
    as (_ & Hsame & Hframe).
  split; [exact Hsame|].
  apply (Hframe 100); unfold in_region; cbn; lia.
Defined.

Lemma real_FFT_blockInit_status_witness :
  fst (@CMSIS_DSP_real_FFT_f32_blockInit exact_arith dft_kernel rfft_blank 1000 2000 64)
  = ret_status ARM_MATH_SUCCESS.
Proof.
  destruct (@real_FFT_blockInit_status exact_arith dft_kernel rfft_blank 1000 2000 64)
    as (Hst & _ & _); [change (-128 <= 0 <= 127); lia|].
  exact Hst.
Defined.

(** ** FIR filter: what apply computes, and how calls compose *)

Section FIRMore.
Context {A : CArith}.
Local Open Scope cfloat_scope.

Lemma tap_sum_ext (cnt : nat) : forall (s s' c c' : Z -> float32_t) (j j' i i' : Z) (acc : float32_t),
  (forall t, 0 <= t < Z.of_nat cnt -> s (j + t) = s' (j' + t) /\ c (i + t) = c' (i' + t)) ->
  tap_sum s c j i cnt acc = tap_sum s' c' j' i' cnt acc.
Proof.
  induction cnt as [|cnt IH]; intros s s' c c' j j' i i' acc Heq; [reflexivity|].
  simpl tap_sum.
  destruct (Heq 0 ltac:(lia)) as [Hs Hc]. rewrite !Z.add_0_r in Hs, Hc.
  rewrite Hs, Hc. apply IH.
  intros t Ht. destruct (Heq (t + 1) ltac:(lia)) as [Hs' Hc'].
  now replace (j + 1 + t) with (j + (t + 1)) by lia;
      replace (j' + 1 + t) with (j' + (t + 1)) by lia;
      replace (i + 1 + t) with (i + (t + 1)) by lia;
      replace (i' + 1 + t) with (i' + (t + 1)) by lia.
Qed.

Lemma tap_sum_app (s c : Z -> float32_t) (k : nat) : forall (l : nat) (j i : Z) (acc : float32_t),
  tap_sum s c j i (k + l) acc
  = tap_sum s c (j + Z.of_nat k) (i + Z.of_nat k) l (tap_sum s c j i k acc).
Proof.
  induction k as [|k IH]; intros l j i acc.
  - simpl. now rewrite !Z.add_0_r.
  - cbn [Nat.add tap_sum]. rewrite IH. f_equal; lia.
Qed.

(** The kernel's accumulation over memory is the sum over the signal. *)
Lemma fir_mac_tap_sum (cnt : nat) : forall (m : mem) (s c : Z -> float32_t)
    (px pb j i : Z) (acc : float32_t),
  (forall t, 0 <= t < Z.of_nat cnt -> m (px + t) = s (j + t) /\ m (pb + t) = c (i + t)) ->
  fir_mac m px pb cnt acc = tap_sum s c j i cnt acc.
Proof.
  induction cnt as [|cnt IH]; intros m s c px pb j i acc Heq; [reflexivity|].
  simpl fir_mac. simpl tap_sum.
  destruct (Heq 0 ltac:(lia)) as [Hs Hc]. rewrite !Z.add_0_r in Hs, Hc.
  rewrite Hs, Hc. apply IH.
  intros t Ht. destruct (Heq (t + 1) ltac:(lia)) as [Hs' Hc'].
  now replace (px + 1 + t) with (px + (t + 1)) by lia;
      replace (pb + 1 + t) with (pb + (t + 1)) by lia;
      replace (j + 1 + t) with (j + (t + 1)) by lia;
      replace (i + 1 + t) with (i + (t + 1)) by lia.
Qed.

Section Kernel.
Variables (st co src dst : ptr) (T B : Z).
Variable m0 : mem.
Hypothesis HT : 1 <= T.
Hypothesis HB : 0 <= B.
Hypothesis Hds : disjoint dst B st (T + B - 1).
Hypothesis Hdc : disjoint dst B co T.
Hypothesis Hdx : disjoint dst B src B.
Hypothesis Hxs : disjoint src B st (T + B - 1).
Hypothesis Hsc : disjoint st (T + B - 1) co T.

Lemma fir_block_progress (c : nat) : forall (k : Z) (m : mem),
  0 <= k -> k + Z.of_nat c = B ->
  fir_progress st co src dst T B m0 k m ->
  fir_progress st co src dst T B m0 B
    (fir_block m (st + k) co T (st + (T - 1) + k) (src + k) (dst + k) c).
Proof.
  induction c as [|c IH]; intros k m Hk HkB Hinv.
  - simpl. assert (Ek : k = B) by lia. now subst k.
  - simpl fir_block.
    replace (st + k + 1) with (st + (k + 1)) by lia.
    replace (st + (T - 1) + k + 1) with (st + (T - 1) + (k + 1)) by lia.
    replace (src + k + 1) with (src + (k + 1)) by lia.
    replace (dst + k + 1) with (dst + (k + 1)) by lia.
    apply IH; [lia | lia |].
    destruct Hinv as (Hstate & Houts & Hframe).
    assert (Hsrc : m (src + k) = fir_signal m0 st src T (T - 1 + k)).
    { unfold fir_signal.
      replace (T - 1 + k <? T - 1) with false by (symmetry; apply Z.ltb_ge; lia).
      replace (T - 1 + k - (T - 1)) with k by lia.
      apply Hframe.
      - intros Hin. apply (Hxs (src + k)); regions.
      - intros Hin. apply (Hdx (src + k)); regions. }
    set (m1 := store m (st + (T - 1) + k) (m (src + k))).
    assert (Hstate1 : forall j, 0 <= j < T - 1 + (k + 1) ->
                        m1 (st + j) = fir_signal m0 st src T j).
    { intros j Hj. unfold m1. destruct (Z.eq_dec j (T - 1 + k)) as [->|Hne].
      - replace (st + (T - 1 + k)) with (st + (T - 1) + k) by lia.
        now rewrite store_eq.
      - rewrite store_neq by lia. apply Hstate. lia. }
    assert (Hacc : fir_mac m1 (st + k) co (Z.to_nat T) (f32_of_int 0)
                   = fir_output (fir_signal m0 st src T) (fun i => m0 (co + i)) T k).
    { unfold fir_output. apply fir_mac_tap_sum. intros t Ht. split.
      - replace (st + k + t) with (st + (k + t)) by lia. apply Hstate1. lia.
      - unfold m1. rewrite store_neq.
        + rewrite Z.add_0_l. apply Hframe.
          * intros Hin. apply (Hsc (co + t)); regions.
          * intros Hin. apply (Hdc (co + t)); regions.
        + intros E. apply (Hsc (co + t)); regions. }
    rewrite Hacc. repeat split.
    + intros j Hj. rewrite store_neq; [now apply Hstate1|].
      intros E. apply (Hds (dst + k)); regions.
    + intros n Hn. destruct (Z.eq_dec n k) as [->|Hne].
      * now rewrite store_eq.
      * rewrite store_neq by lia. unfold m1. rewrite store_neq.
        -- apply Houts. lia.
        -- intros E. apply (Hds (dst + n)); regions.
    + intros a Hs Hd. rewrite store_neq by (intros E; apply Hd; regions).
      unfold m1. rewrite store_neq by (intros E; apply Hs; regions).
      now apply Hframe.
Qed.

(** The samples kept for the next call move down by [B] cells. *)
Lemma fir_shift_moves (t : nat) : forall (m : mem) (pc : ptr) (j : Z),
  0 <= j < Z.of_nat t ->
  fir_shift m pc (pc + B) t (pc + j) = m (pc + B + j).
Proof.
  induction t as [|t IH]; intros m pc j Hj; [lia|].
  simpl fir_shift. destruct (Z.eq_dec j 0) as [->|Hne].
  - rewrite fir_shift_out by regions.
    rewrite !Z.add_0_r. apply store_eq.
  - replace (pc + B + 1) with (pc + 1 + B) by lia.
    replace (pc + j) with (pc + 1 + (j - 1)) by lia.
    rewrite IH by lia. rewrite store_neq by lia. f_equal. lia.
Qed.

(** One call of the kernel: outputs, the history it leaves, and its frame. *)
Lemma arm_fir_f32_computes :
  let m' := arm_fir_f32 {| arm_fir_numTaps := T; arm_fir_pState := st;
                           arm_fir_pCoeffs := co |} m0 src dst B in
  (forall n, 0 <= n < B ->
     m' (dst + n) = fir_output (fir_signal m0 st src T) (fun i => m0 (co + i)) T n) /\
  (forall j, 0 <= j < T - 1 -> m' (st + j) = fir_signal m0 st src T (B + j)) /\
  (forall a, ~ in_region st (T + B - 1) a -> ~ in_region dst B a -> m' a = m0 a).
Proof.
  intros m'. subst m'. unfold arm_fir_f32.
  cbn [arm_fir_numTaps arm_fir_pState arm_fir_pCoeffs].
  pose proof (fir_block_progress (Z.to_nat B) 0 m0) as Hblk.
  rewrite !Z.add_0_r in Hblk.
  destruct Hblk as (Hstate & Houts & Hframe); [lia | lia | |].
  { repeat split.
    - intros j Hj. unfold fir_signal.
      now replace (j <? T - 1) with true by (symmetry; apply Z.ltb_lt; lia).
    - intros n Hn. lia. }
  set (mb := fir_block m0 st co T (st + (T - 1)) src dst (Z.to_nat B)) in *.
  repeat split.
  - intros n Hn. rewrite fir_shift_out; [now apply Houts|].
    intros Hin. apply (Hds (dst + n)); regions.
  - intros j Hj. rewrite fir_shift_moves by lia.
    replace (st + B + j) with (st + (B + j)) by lia. apply Hstate. lia.
  - intros a Hs Hd. rewrite fir_shift_out by (intros Hin; apply Hs; regions).
    now apply Hframe.
Qed.

End Kernel.

(** One call of apply on an initialised block: the scratch copy first, then
    the kernel on it. *)
Lemma FIR_apply_computes
    (b0 : fir_f32_TypeDef) (coeffs state tmp : ptr) (T B : Z) (m0 m : mem)
    (pInput pOutput : ptr) :
  1 <= T -> 0 <= B ->
  fir_buffers_ok coeffs state tmp T B pInput pOutput ->
  let b := snd (fst (CMSIS_DSP_FIR_f32_blockInit b0 coeffs state tmp T B m0)) in
  let m' := snd (CMSIS_DSP_FIR_f32_apply b pInput pOutput m) in
  (forall n, 0 <= n < B ->
     m' (pOutput + n)
     = fir_output (fir_signal m state pInput T) (fun i => m (coeffs + i)) T n) /\
  (forall j, 0 <= j < T - 1 -> m' (state + j) = fir_signal m state pInput T (B + j)) /\
  (forall a, ~ in_region state (T + B - 1) a -> ~ in_region tmp B a ->
             ~ in_region pOutput B a -> m' a = m a).
Proof.
  intros HT HB (Hos & Hoc & Hot & Hts & Htc & Hsc & Hit) b m'. subst m' b.
  rewrite FIR_blockInit_block. unfold CMSIS_DSP_FIR_f32_apply.
  cbn [snd fir_arm_struct fir_blockSize fir_tmpBuffer].
  unfold memcpy, sizeof_float32_t. rewrite Z.mul_comm, Z.div_mul by discriminate.
  set (mc := write_list m tmp (read_list m pInput (Z.to_nat B))).
  assert (Hmc_out : forall a, ~ in_region tmp B a -> mc a = m a).
  { intros a Ha. unfold mc. apply write_list_out. rewrite read_list_length.
    intros Hin. apply Ha. regions. }
  assert (Hmc_in : forall n, 0 <= n < B -> mc (tmp + n) = m (pInput + n)).
  { intros n Hn. unfold mc.
    replace (tmp + n) with (tmp + Z.of_nat (Z.to_nat n)) by lia.
    rewrite (write_list_in _ _ _ _ (f32_of_int 0)) by (rewrite read_list_length; lia).
    rewrite read_list_nth by lia. f_equal. lia. }
  assert (Hsig : forall j, 0 <= j < T - 1 + B ->
                   fir_signal mc state tmp T j = fir_signal m state pInput T j).
  { intros j Hj. unfold fir_signal. destruct (j <? T - 1) eqn:E.
    - apply Z.ltb_lt in E. apply Hmc_out. intros Hin. apply (Hts (state + j)); regions.
    - apply Z.ltb_ge in E. apply Hmc_in. lia. }
  assert (Hco : forall i, 0 <= i < T -> mc (coeffs + i) = m (coeffs + i)).
  { intros i Hi. apply Hmc_out. intros Hin. apply (Htc (coeffs + i)); regions. }
  destruct (arm_fir_f32_computes state coeffs tmp pOutput T B mc HT HB Hos Hoc Hot)
    as (Houts & Hhist & Hframe).
  { intros a Ha Hb. apply (Hts a); assumption. }
  { exact Hsc. }
  repeat split.
  - intros n Hn. rewrite Houts by assumption. unfold fir_output.
    apply tap_sum_ext. intros t Ht. split.
    + apply Hsig. lia.
    + rewrite !Z.add_0_l. apply Hco. lia.
  - intros j Hj. rewrite Hhist by assumption. apply Hsig. lia.
  - intros a Hs Ht Ho. rewrite Hframe by assumption. now apply Hmc_out.
Qed.

(** The scratch buffer after the call: the input samples, copied there
    before the kernel runs. *)
Lemma FIR_apply_scratch
    (b0 : fir_f32_TypeDef) (coeffs state tmp : ptr) (T B : Z) (m0 m : mem)
    (pInput pOutput : ptr) (n : Z) :
  1 <= T -> 0 <= n < B ->
  disjoint tmp B state (T + B - 1) ->
  disjoint pOutput B tmp B ->
  snd (CMSIS_DSP_FIR_f32_apply
         (snd (fst (CMSIS_DSP_FIR_f32_blockInit b0 coeffs state tmp T B m0)))
         pInput pOutput m) (tmp + n)
  = m (pInput + n).
Proof.
  intros HT Hn Hts Hot. rewrite FIR_blockInit_block.
  unfold CMSIS_DSP_FIR_f32_apply.
  cbn [snd fir_arm_struct fir_blockSize fir_tmpBuffer].
  unfold memcpy, sizeof_float32_t. rewrite Z.mul_comm, Z.div_mul by discriminate.
  rewrite arm_fir_f32_out; cbn [arm_fir_numTaps arm_fir_pState]; try lia.
  - replace (tmp + n) with (tmp + Z.of_nat (Z.to_nat n)) by lia.
    rewrite (write_list_in _ _ _ _ (f32_of_int 0)) by (rewrite read_list_length; lia).
    rewrite read_list_nth by lia. f_equal. lia.
  - intros Hin. apply (Hts (tmp + n)); regions.
  - intros Hin. apply (Hot (tmp + n)); regions.
Qed.

End FIRMore.

Ltac part_of Hd := intros ?a ?Ha ?Hb; apply (Hd a); regions.

Section FIRCompose.
Context {A : CArith}.
Local Open Scope cfloat_scope.

(** C8: the apply operation first copies the input samples into the block's
    scratch buffer and filters the copy.  So when the output buffer is the
    input buffer itself, the scratch buffer holds the input samples after the
    call, every output sample is the filter's sum over the samples the buffer
    held before the call (not over the outputs written on them), and it is
    the sample the call produces into any other output buffer. *)
Theorem FIR_apply_in_place_same_output
    (b0 : fir_f32_TypeDef) (coeffs state tmp : ptr) (T B : Z) (m0 m : mem)
    (pInput pOther : ptr) (n : Z) :
  let b := snd (fst (CMSIS_DSP_FIR_f32_blockInit b0 coeffs state tmp T B m0)) in
  1 <= T ->
  fir_buffers_ok coeffs state tmp T B pInput pInput ->
  fir_buffers_ok coeffs state tmp T B pInput pOther ->
  0 <= n < B ->
  snd (CMSIS_DSP_FIR_f32_apply b pInput pInput m) (tmp + n) = m (pInput + n) /\
  snd (CMSIS_DSP_FIR_f32_apply b pInput pInput m) (pInput + n)
    = tap_sum (fir_signal m state pInput T) (fun i => m (coeffs + i))
        n 0 (Z.to_nat T) (f32_of_int 0) /\
  snd (CMSIS_DSP_FIR_f32_apply b pInput pInput m) (pInput + n)
    = snd (CMSIS_DSP_FIR_f32_apply b pInput pOther m) (pOther + n).
Proof.
  intros b HT Hin Hother Hn. subst b.
  destruct (FIR_apply_computes b0 coeffs state tmp T B m0 m pInput pInput
              HT ltac:(lia) Hin) as (Hout1 & _ & _).
  destruct (FIR_apply_computes b0 coeffs state tmp T B m0 m pInput pOther
              HT ltac:(lia) Hother) as (Hout2 & _ & _).
  destruct Hin as (_ & _ & Hot & Hts & _).
  repeat split.
  - now apply FIR_apply_scratch.
  - now apply Hout1.
  - now rewrite Hout1, Hout2.
Qed.

(** X18: what one call of apply computes.  Output sample [n] is the dot
    product, accumulated from zero and from the oldest tap, of the stored
    coefficients with the [numTap] samples that end at input sample [n],
    where the samples before the block are the history kept in the state
    buffer; the last [numTap - 1] samples become the history of the next
    call; the output may be the input buffer itself. *)
Theorem FIR_apply_convolves
    (b0 : fir_f32_TypeDef) (coeffs state tmp : ptr) (T B : Z) (m0 m : mem)
    (pInput pOutput : ptr) :
  1 <= T -> 0 <= B ->
  fir_buffers_ok coeffs state tmp T B pInput pOutput ->
  let b := snd (fst (CMSIS_DSP_FIR_f32_blockInit b0 coeffs state tmp T B m0)) in
  (forall n, 0 <= n < B ->
     snd (CMSIS_DSP_FIR_f32_apply b pInput pOutput m) (pOutput + n)
     = tap_sum (fir_signal m state pInput T) (fun i => m (coeffs + i))
         n 0 (Z.to_nat T) (f32_of_int 0)) /\
  (forall j, 0 <= j < T - 1 ->
     snd (CMSIS_DSP_FIR_f32_apply b pInput pOutput m) (state + j)
     = fir_signal m state pInput T (B + j)).
Proof.
  intros HT HB Hok b.
  destruct (FIR_apply_computes b0 coeffs state tmp T B m0 m pInput pOutput HT HB Hok)
    as (Houts & Hhist & _).
  split; [exact Houts | exact Hhist].
Qed.

(** X19: streaming.  Filtering [2 * B] samples by two calls of [B] samples,
    on the same block, writes the same [2 * B] output samples and leaves the
    same history as filtering them by one call on a block of [2 * B]
    samples: the state buffer carries the filter across calls. *)
Theorem FIR_apply_streaming
    (b0 : fir_f32_TypeDef) (coeffs state tmp : ptr) (T B : Z) (m0 m : mem)
    (pInput pOutput : ptr) :
  1 <= T -> 0 <= B ->
  fir_stream_buffers_ok coeffs state tmp T B pInput pOutput ->
  let b := snd (fst (CMSIS_DSP_FIR_f32_blockInit b0 coeffs state tmp T B m0)) in
  let b2 := snd (fst (CMSIS_DSP_FIR_f32_blockInit b0 coeffs state tmp T (2 * B) m0)) in
  let twice :=
    snd (CMSIS_DSP_FIR_f32_apply b (pInput + B) (pOutput + B)
           (snd (CMSIS_DSP_FIR_f32_apply b pInput pOutput m))) in
  let once := snd (CMSIS_DSP_FIR_f32_apply b2 pInput pOutput m) in
  (forall n, 0 <= n < 2 * B -> twice (pOutput + n) = once (pOutput + n)) /\
  (forall j, 0 <= j < T - 1 -> twice (state + j) = once (state + j)).
Proof.
  intros HT HB (Hos & Hoc & Hot & Hoi & Hts & Htc & Hsc & Hit & His) b b2 twice once.
  assert (Hok2 : fir_buffers_ok coeffs state tmp T (2 * B) pInput pOutput).
  { repeat split; assumption. }
  assert (Hok1 : fir_buffers_ok coeffs state tmp T B pInput pOutput).
  { repeat split; [part_of Hos | part_of Hoc | part_of Hot | part_of Hts
                  | part_of Htc | part_of Hsc | part_of Hit]. }
  assert (Hok1' : fir_buffers_ok coeffs state tmp T B (pInput + B) (pOutput + B)).
  { repeat split; [part_of Hos | part_of Hoc | part_of Hot | part_of Hts
                  | part_of Htc | part_of Hsc | part_of Hit]. }
  set (m1 := snd (CMSIS_DSP_FIR_f32_apply b pInput pOutput m)) in *.
  destruct (FIR_apply_computes b0 coeffs state tmp T B m0 m pInput pOutput
              HT HB Hok1) as (Hout1 & Hhist1 & Hframe1).
  fold b in Hout1, Hhist1, Hframe1. fold m1 in Hout1, Hhist1, Hframe1.
  destruct (FIR_apply_computes b0 coeffs state tmp T B m0 m1 (pInput + B) (pOutput + B)
              HT HB Hok1') as (Hout2 & Hhist2 & Hframe2).
  fold b in Hout2, Hhist2, Hframe2. fold twice in Hout2, Hhist2, Hframe2.
  destruct (FIR_apply_computes b0 coeffs state tmp T (2 * B) m0 m pInput pOutput
              HT ltac:(lia) Hok2) as (Hout & Hhist & _).
  fold b2 in Hout, Hhist. fold once in Hout, Hhist.
  assert (Hsig : forall j, 0 <= j < T - 1 + B ->
                   fir_signal m1 state (pInput + B) T j
                   = fir_signal m state pInput T (B + j)).
  { intros j Hj. unfold fir_signal at 1. destruct (j <? T - 1) eqn:E.
    - apply Z.ltb_lt in E. apply Hhist1. lia.
    - apply Z.ltb_ge in E. unfold fir_signal.
      replace (B + j <? T - 1) with false by (symmetry; apply Z.ltb_ge; lia).
      replace (pInput + B + (j - (T - 1))) with (pInput + (B + j - (T - 1))) by lia.
      apply Hframe1.
      + intros Hin. apply (His (pInput + (B + j - (T - 1)))); regions.
      + intros Hin. apply (Hit (pInput + (B + j - (T - 1)))); regions.
      + intros Hin. apply (Hoi (pInput + (B + j - (T - 1)))); regions. }
  assert (Hco : forall i, 0 <= i < T -> m1 (coeffs + i) = m (coeffs + i)).
  { intros i Hi. apply Hframe1.
    - intros Hin. apply (Hsc (coeffs + i)); regions.
    - intros Hin. apply (Htc (coeffs + i)); regions.
    - intros Hin. apply (Hoc (coeffs + i)); regions. }
  split.
  - intros n Hn. rewrite Hout by assumption.
    destruct (Z.lt_ge_cases n B) as [Hlow|Hhigh].
    + rewrite Hframe2.
      * now apply Hout1.
      * intros Hin. apply (Hos (pOutput + n)); regions.
      * intros Hin. apply (Hot (pOutput + n)); regions.
      * regions.
    + replace (pOutput + n) with (pOutput + B + (n - B)) by lia.
      rewrite Hout2 by lia. unfold fir_output.
      apply tap_sum_ext. intros t Ht. split.
      * rewrite Hsig by lia. f_equal. lia.
      * rewrite !Z.add_0_l. apply Hco. lia.
  - intros j Hj. rewrite Hhist, Hhist2 by assumption.
    rewrite Hsig by lia. f_equal. lia.
Qed.

End FIRCompose.

Lemma FIR_apply_in_place_witness :
  snd (@CMSIS_DSP_FIR_f32_apply exact_arith
         (snd (fst (@CMSIS_DSP_FIR_f32_blockInit exact_arith
                      fir_blank 100 200 300 2 3 m_fir)))
         400 400 m_fir) (300 + 1) = m_fir (400 + 1) /\
  snd (@CMSIS_DSP_FIR_f32_apply exact_arith
         (snd (fst (@CMSIS_DSP_FIR_f32_blockInit exact_arith
                      fir_blank 100 200 300 2 3 m_fir)))
         400 400 m_fir) (400 + 1)
  = @tap_sum exact_arith (@fir_signal exact_arith m_fir 200 400 2)
      (fun i => m_fir (100 + i)) 1 0 2 0%R /\
  snd (@CMSIS_DSP_FIR_f32_apply exact_arith
         (snd (fst (@CMSIS_DSP_FIR_f32_blockInit exact_arith
                      fir_blank 100 200 300 2 3 m_fir)))
         400 400 m_fir) (400 + 1)
  = snd (@CMSIS_DSP_FIR_f32_apply exact_arith
           (snd (fst (@CMSIS_DSP_FIR_f32_blockInit exact_arith
                        fir_blank 100 200 300 2 3 m_fir)))
           400 500 m_fir) (500 + 1).
Proof.
  apply (@FIR_apply_in_place_same_output exact_arith
           fir_blank 100 200 300 2 3 m_fir m_fir 400 500 1).
  - lia.
  - repeat split; regions.
  - repeat split; regions.
  - lia.
Defined.

Lemma FIR_apply_convolves_witness :
  snd (@CMSIS_DSP_FIR_f32_apply exact_arith
         (snd (fst (@CMSIS_DSP_FIR_f32_blockInit exact_arith
                      fir_blank 100 200 300 2 3 m_fir)))
         400 500 m_fir) (500 + 1)
  = @tap_sum exact_arith (@fir_signal exact_arith m_fir 200 400 2)
      (fun i => m_fir (100 + i)) 1 0 2 0%R /\
  snd (@CMSIS_DSP_FIR_f32_apply exact_arith
         (snd (fst (@CMSIS_DSP_FIR_f32_blockInit exact_arith
                      fir_blank 100 200 300 2 3 m_fir)))
         400 500 m_fir) (200 + 0)
  = @fir_signal exact_arith m_fir 200 400 2 (3 + 0).
Proof.
  destruct (@FIR_apply_convolves exact_arith
              fir_blank 100 200 300 2 3 m_fir m_fir 400 500)
    as [Houts Hhist]; [lia | lia | repeat split; regions |].
  split; [apply (Houts 1); lia | apply (Hhist 0); lia].
Defined.

Lemma FIR_apply_streaming_witness :
  snd (@CMSIS_DSP_FIR_f32_apply exact_arith
         (snd (fst (@CMSIS_DSP_FIR_f32_blockInit exact_arith
                      fir_blank 100 200 300 2 2 m_fir)))
         (400 + 2) (500 + 2)
         (snd (@CMSIS_DSP_FIR_f32_apply exact_arith
                 (snd (fst (@CMSIS_DSP_FIR_f32_blockInit exact_arith
                              fir_blank 100 200 300 2 2 m_fir)))
                 400 500 m_fir))) (500 + 3)
  = snd (@CMSIS_DSP_FIR_f32_apply exact_arith
           (snd (fst (@CMSIS_DSP_FIR_f32_blockInit exact_arith
                        fir_blank 100 200 300 2 (2 * 2) m_fir)))
           400 500 m_fir) (500 + 3).
Proof.
  destruct (@FIR_apply_streaming exact_arith
              fir_blank 100 200 300 2 2 m_fir m_fir 400 500)
    as [Houts _]; [lia | lia | repeat split; regions |].
  apply (Houts 3). lia.
Defined.

(** ** The rectangular window in binary32 *)

Lemma digits2_pos_shift23 (m : positive) :
  Zpos (digits2_pos (Pos.mul m 8388608)) = Zpos (digits2_pos m) + 23.
Proof.
  rewrite Pos.mul_comm. cbn [Pos.mul digits2_pos]. rewrite !Pos2Z.inj_succ. lia.
Qed.

Lemma shr_23 (m : positive) :
  iter_pos shr_1 23 (Build_shr_record (Zpos (Pos.mul m 8388608)) false false)
  = Build_shr_record (Zpos m) false false.
Proof. rewrite Pos.mul_comm. reflexivity. Qed.

(** Multiplying a binary32 value by [1.0f] rounds to the value itself:
    finite (normal or subnormal), zero of either sign, infinite or NaN. *)
Lemma SFmul_one_r (x : spec_float) :
  valid_binary 24 128 x = true -> SFmul 24 128 x binary32_one = x.
Proof.
  destruct x as [s|s| |s m e]; intros Hv; cbn [SFmul binary32_one].
  - now rewrite xorb_false_r.
  - now rewrite xorb_false_r.
  - reflexivity.
  - cbn [valid_binary] in Hv. unfold bounded, canonical_mantissa in Hv.
    apply andb_true_iff in Hv as [Hc Hb]. apply Z.eqb_eq in Hc. apply Z.leb_le in Hb.
    rewrite xorb_false_r.
    unfold binary_round_aux, shr_fexp. cbn [Zdigits2 shr_record_of_loc].
    rewrite digits2_pos_shift23.
    replace (Z.pos (digits2_pos m) + 23 + (e + -23)) with (Z.pos (digits2_pos m) + e) by lia.
    rewrite Hc.
    replace (e - (e + -23)) with 23 by lia.
    cbn [shr]. rewrite shr_23.
    cbn [shr_m loc_of_shr_record round_nearest_even Zdigits2 shr_record_of_loc].
    replace (e + -23 + 23) with e by lia.
    rewrite Hc, Z.sub_diag. cbn [shr shr_m].
    apply Z.leb_le in Hb. now rewrite Hb.
Qed.

(** X21: in IEEE binary32 the rectangular window changes nothing.  After an
    initialisation with the rectangular type, apply writes to output cell
    [n] the very value of input cell [n] - finite, zero of either sign or
    infinite - in place or into another buffer: the product with the stored
    [1.0f] rounds to the sample itself. *)
Theorem rectangular_window_is_identity_binary32
    (cos64 : spec_float -> spec_float) (H : Header)
    (w : window_TypeDef) (buf : ptr) (L : Z) (m : @mem (ieee_arith cos64))
    (pInput pOutput : ptr) (n : Z) :
  0 <= n < L ->
  disjoint pInput L buf L ->
  writes_behind pOutput pInput L ->
  writes_behind pOutput buf L ->
  valid_binary 24 128 (m (pInput + n)) = true ->
  snd (@CMSIS_DSP_windowFunciton_apply (ieee_arith cos64)
         (snd (fst (@CMSIS_DSP_windowFunction_blockInit (ieee_arith cos64) H
                      w buf WINDOW_TYPE_RECTANGULAR L m)))
         pInput pOutput
         (snd (@CMSIS_DSP_windowFunction_blockInit (ieee_arith cos64) H
                 w buf WINDOW_TYPE_RECTANGULAR L m)))
      (pOutput + n)
  = m (pInput + n).
Proof.
  intros Hn Hdis HA HB Hv.
  rewrite windowFunction_blockInit_block, windowFunction_blockInit_rectangular.
  unfold CMSIS_DSP_windowFunciton_apply. cbn [snd w_value w_length].
  assert (HL : Z.of_nat (Z.to_nat L) = L) by lia.
  rewrite arm_mult_f32_in; rewrite ?HL; try assumption.
  rewrite for_loop_store_in by lia.
  rewrite for_loop_store_out
    by (rewrite HL; intros Hin; apply (Hdis (pInput + n)); regions).
  change (SFmul 24 128 (m (pInput + n)) binary32_one = m (pInput + n)).
  now apply SFmul_one_r.
Qed.

Lemma rectangular_window_is_identity_binary32_witness :
  snd (@CMSIS_DSP_windowFunciton_apply (ieee_arith (fun x => x))
         (snd (fst (@CMSIS_DSP_windowFunction_blockInit (ieee_arith (fun x => x))
                      std_header w_blank 800 (@WINDOW_TYPE_RECTANGULAR std_header) 3
                      (m_binary32 (fun x => x)))))
         400 400
         (snd (@CMSIS_DSP_windowFunction_blockInit (ieee_arith (fun x => x))
                 std_header w_blank 800 (@WINDOW_TYPE_RECTANGULAR std_header) 3
                 (m_binary32 (fun x => x)))))
      (400 + 1)
  = m_binary32 (fun x => x) (400 + 1).
Proof.
  apply (rectangular_window_is_identity_binary32 (fun x => x) std_header
           w_blank 800 3 (m_binary32 (fun x => x)) 400 400 1);
    [lia | regions | regions | regions | reflexivity].
Defined.

(** ** The pass-through filter in binary32 *)

Lemma tap_sum_zero_taps_binary32 (cos64 : spec_float -> spec_float)
    (s c : Z -> spec_float) (cnt : nat) : forall (j i : Z),
  (forall t, 0 <= t < Z.of_nat cnt ->
     binary32_finite (s (j + t)) = true /\ c (i + t) = S754_zero false) ->
  @tap_sum (ieee_arith cos64) s c j i cnt (S754_zero false) = S754_zero false.
Proof.
  induction cnt as [|cnt IH]; intros j i Hz; [reflexivity|].
  cbn [tap_sum].
  destruct (Hz 0 ltac:(lia)) as [Hf Hc]. rewrite !Z.add_0_r in Hf, Hc.
  replace (@f32_add (ieee_arith cos64) (S754_zero false)
             (@f32_mul (ieee_arith cos64) (s j) (c i)))
    with (S754_zero false).
  - apply IH. intros t Ht.
    replace (j + 1 + t) with (j + (t + 1)) by lia.
    replace (i + 1 + t) with (i + (t + 1)) by lia.
    apply Hz. lia.
  - rewrite Hc. cbn [f32_add f32_mul ieee_arith].
    destruct (s j) as [sg|sg| |sg mx ex]; try discriminate Hf; cbn [SFmul SFadd];
      now destruct sg.
Qed.

(** X20: the pass-through filter in IEEE binary32.  With the coefficients of
    the identity, stored time-reversed (the last stored coefficient is
    [1.0f], the others [+0.0f]), apply writes input sample [n] itself to
    output cell [n], provided the [numTap - 1] samples before it (history
    or input) are neither infinite nor NaN; the one exception is an input
    [-0.0f], which comes out as [+0.0f]. *)
Theorem FIR_apply_pass_through_binary32
    (cos64 : spec_float -> spec_float)
    (b0 : fir_f32_TypeDef) (coeffs state tmp : ptr) (T B : Z)
    (m0 m : @mem (ieee_arith cos64)) (pInput pOutput : ptr) (n : Z) :
  1 <= T -> 0 <= n < B ->
  fir_buffers_ok coeffs state tmp T B pInput pOutput ->
  m (coeffs + (T - 1)) = binary32_one ->
  (forall i, 0 <= i < T - 1 -> m (coeffs + i) = S754_zero false) ->
  (forall j, n <= j < n + (T - 1) ->
     binary32_finite (@fir_signal (ieee_arith cos64) m state pInput T j) = true) ->
  valid_binary 24 128 (m (pInput + n)) = true ->
  snd (@CMSIS_DSP_FIR_f32_apply (ieee_arith cos64)
         (snd (fst (@CMSIS_DSP_FIR_f32_blockInit (ieee_arith cos64)
                      b0 coeffs state tmp T B m0)))
         pInput pOutput m) (pOutput + n)
  = match m (pInput + n) with
    | S754_zero true => S754_zero false
    | x => x
    end.
Proof.
  intros HT Hn Hok Hone Hzero Hfin Hv.
  destruct (@FIR_apply_computes (ieee_arith cos64) b0 coeffs state tmp T B m0 m
              pInput pOutput HT ltac:(lia) Hok) as (Houts & _ & _).
  rewrite Houts by assumption. unfold fir_output.
  replace (Z.to_nat T) with (Z.to_nat (T - 1) + 1)%nat by lia.
  rewrite tap_sum_app.
  change (@f32_of_int (ieee_arith cos64) 0) with (S754_zero false).
  rewrite (tap_sum_zero_taps_binary32 cos64 _ _ (Z.to_nat (T - 1)) n 0).
  - cbn [tap_sum]. replace (Z.of_nat (Z.to_nat (T - 1))) with (T - 1) by lia.
    rewrite Z.add_0_l, Hone. unfold fir_signal.
    replace (n + (T - 1) <? T - 1) with false by (symmetry; apply Z.ltb_ge; lia).
    replace (n + (T - 1) - (T - 1)) with n by lia.
    change (SFadd 24 128 (S754_zero false) (SFmul 24 128 (m (pInput + n)) binary32_one)
            = match m (pInput + n) with
              | S754_zero true => S754_zero false
              | x => x
              end).
    rewrite SFmul_one_r by assumption.
    destruct (m (pInput + n)) as [sg|sg| |sg mx ex]; try reflexivity; now destruct sg.
  - intros t Ht. split; [apply Hfin; lia | rewrite Z.add_0_l; apply Hzero; lia].
Qed.

Lemma FIR_apply_pass_through_binary32_witness :
  snd (@CMSIS_DSP_FIR_f32_apply (ieee_arith (fun x => x))
         (snd (fst (@CMSIS_DSP_FIR_f32_blockInit (ieee_arith (fun x => x))
                      fir_blank 100 200 300 2 3 (m_binary32 (fun x => x)))))
         400 500
         (@write_list (ieee_arith (fun x => x)) (m_binary32 (fun x => x)) 100
            [S754_zero false; binary32_one])) (500 + 2)
  = S754_finite false 12582912 (-21).
Proof.
  apply (FIR_apply_pass_through_binary32 (fun x => x)
           fir_blank 100 200 300 2 3 (m_binary32 (fun x => x))
           (@write_list (ieee_arith (fun x => x)) (m_binary32 (fun x => x)) 100
              [S754_zero false; binary32_one]) 400 500 2).
  - lia.
  - lia.
  - repeat split; regions.
  - reflexivity.
  - intros i Hi. assert (Ei : i = 0) by lia. subst i. reflexivity.
  - intros j Hj. assert (Ej : j = 2) by lia. subst j. reflexivity.
  - reflexivity.
Defined.
